(** * xapian-bridge: the HTTP control plane of [src/xapianBridge.js]

    The request handlers and the startup replay of [main] are embedded from
    the source.  The two collaborators the file imports, [DatabaseManager]
    and [DatabaseCache], are modelled from the contract the specification
    gives for them; the file system, the search engine and the storage layer
    are an explicit environment [Env]. *)

From stdpp Require Import gmap strings list fin_maps sorting.
From Stdlib Require Import ZArith.

Local Open Scope string_scope.

(** ** Exceptions and the state-and-exception monad

    JavaScript code mutates objects and may throw at any call; the state
    reached at the moment of the throw is kept.  [Eff S A] is a computation
    over the mutable state [S] that either completes with an [A] or throws. *)

Inductive exn : Type :=
  | ERR_INVALID_PATH          (* DatabaseManager.ERR_INVALID_PATH *)
  | ERR_DATABASE_NOT_FOUND    (* DatabaseManager.ERR_DATABASE_NOT_FOUND *)
  | ERR_ENGINE_FAILURE        (* opaque failure of the search engine *)
  | ERR_STORAGE.              (* failure of the cache's storage layer *)

#[global] Instance exn_eq_dec : EqDecision exn.
Proof. solve_decision. Defined.

Inductive completion (A : Type) : Type :=
  | Normal (a : A)
  | Throw (e : exn).
Arguments Normal {A} a.
Arguments Throw {A} e.

Definition Eff (S A : Type) : Type := S → completion A * S.

Definition ret {S A} (a : A) : Eff S A := λ s, (Normal a, s).

Definition throw {S A} (e : exn) : Eff S A := λ s, (Throw e, s).

Definition bind {S A B} (m : Eff S A) (k : A → Eff S B) : Eff S B :=
  λ s, match m s with
       | (Normal a, s') => k a s'
       | (Throw e, s') => (Throw e, s')
       end.

(** [try { body } catch (e) { handler e }] *)
Definition try_catch {S A} (body : Eff S A) (handler : exn → Eff S A) : Eff S A :=
  λ s, match body s with
       | (Normal a, s') => (Normal a, s')
       | (Throw e, s') => handler e s'
       end.

Declare Scope eff_scope.
Delimit Scope eff_scope with eff.
Notation "x <- m ;; k" := (bind m (λ x, k))
  (at level 100, m at next level, right associativity) : eff_scope.
Notation "m ;; k" := (bind m (λ _, k))
  (at level 100, right associativity) : eff_scope.
Local Open Scope eff_scope.

(** ** The environment: file system, search engine, storage layer *)

(** A scored document as the engine reports it: its relevance score and its
    JSON text. *)
Record ScoredDoc : Type := { score : Z; payload : string }.

#[global] Instance ScoredDoc_eq_dec : EqDecision ScoredDoc.
Proof. solve_decision. Defined.

(** What the manager asks of the engine; recorded in the manager's log so
    that "no query is executed" and "the location is not validated again"
    can be observed. *)
Inductive EngineCall : Type :=
  | OpenIndex (location : string)
  | Search (location : string) (q collapse : option string) (limit : string).

#[global] Instance EngineCall_eq_dec : EqDecision EngineCall.
Proof. solve_decision. Defined.

Inductive CacheOp : Type :=
  | WriteEntry (name location : string)
  | DropEntry (name : string).

Record Env : Type := {
  (* an openable index exists at the location *)
  valid_path : string → bool;
  (* the engine's answer for a handle opened at a location; None is a failure *)
  engine_search : string → option string → option string → string → option (list ScoredDoc);
  (* the number the manager reads from the limit parameter *)
  limit_of : string → nat;
  (* whether the storage layer fails on an operation, given the stored entries *)
  storage_fails : CacheOp → gmap string string → bool
}.

(** ** DatabaseManager (imports.databaseManager) *)

Module DatabaseManager.

(** Modelled from the spec: the file [databaseManager.js] is missing.  The
    Index Registry of spec section 4.2 owns the open handles, one per name;
    a handle is represented by the location it was opened at. *)
Record t : Type := {
  databases : gmap string string;
  engine_log : list EngineCall
}.

(** [new DatabaseManager()] *)
Definition new : t := {| databases := ∅; engine_log := [] |}.

Definition log (c : EngineCall) : Eff t unit :=
  λ m, (Normal tt, {| databases := databases m; engine_log := engine_log m ++ [c] |}).

Definition open_handle (name location : string) : Eff t unit :=
  λ m, (Normal tt, {| databases := <[name := location]> (databases m);
                      engine_log := engine_log m |}).

Definition close_handle (name : string) : Eff t unit :=
  λ m, (Normal tt, {| databases := delete name (databases m);
                      engine_log := engine_log m |}).

Definition handle_of (name : string) : Eff t (option string) :=
  λ m, (Normal (databases m !! name), m).

Definition open_handles : Eff t (list (string * string)) :=
  λ m, (Normal (map_to_list (databases m)), m).

(** Modelled from the spec: [has(name)], a pure lookup without side
    effects. *)
Definition has_db (name : string) : Eff t bool :=
  h <- handle_of name ;;
  ret (bool_decide (is_Some h)).

Section WithEnv.
Context (env : Env).

(** Modelled from the spec: [create(name, location)].  A name that
    already has an open handle succeeds without touching the handle or
    validating the location; otherwise the location is validated, an
    invalid one fails with InvalidLocation and leaves the registry as it
    was, a valid one opens the handle. *)
Definition create_db (name location : string) : Eff t unit :=
  h <- handle_of name ;;
  match h with
  | Some _ => ret tt
  | None =>
      log (OpenIndex location) ;;
      if valid_path env location
      then open_handle name location
      else throw ERR_INVALID_PATH
  end.

(** Modelled from the spec: [remove(name)] fails with NotFound when the
    name has no open handle and otherwise releases the handle. *)
Definition remove_db (name : string) : Eff t unit :=
  h <- handle_of name ;;
  match h with
  | None => throw ERR_DATABASE_NOT_FOUND
  | Some _ => close_handle name
  end.

(** One engine call on an open handle; an engine-level failure is
    reported as the opaque EngineFailure. *)
Definition search (location : string) (q collapse : option string)
    (limit : string) : Eff t (list ScoredDoc) :=
  log (Search location q collapse limit) ;;
  match engine_search env location q collapse limit with
  | Some docs => ret docs
  | None => throw ERR_ENGINE_FAILURE
  end.

(** Modelled from the spec: [query(name, q, collapse, limit)] fails with
    NotFound when the name is not open and otherwise returns the engine's
    result sequence unmodified. *)
Definition query_db (name : string) (q collapse : option string)
    (limit : string) : Eff t (list ScoredDoc) :=
  h <- handle_of name ;;
  match h with
  | None => throw ERR_DATABASE_NOT_FOUND
  | Some location => search location q collapse limit
  end.

(** Stable insertion by descending score: [d] goes in front of the first
    document whose score does not exceed its own. *)
Fixpoint insert_by_score (d : ScoredDoc) (l : list ScoredDoc) : list ScoredDoc :=
  match l with
  | [] => [d]
  | d' :: l' =>
      if (score d' <=? score d)%Z
      then d :: d' :: l'
      else d' :: insert_by_score d l'
  end.

(** Merging per-index result sequences, given in index iteration order,
    into one sequence ordered by descending score; documents of equal
    score keep the iteration order. *)
Definition merge_results (per_index : list (list ScoredDoc)) : list ScoredDoc :=
  foldr insert_by_score [] (concat per_index).

(** The fan-out: the query runs on every open handle in turn; the first
    engine failure aborts the loop. *)
Fixpoint search_each (handles : list (string * string)) (q collapse : option string)
    (limit : string) : Eff t (list (list ScoredDoc)) :=
  match handles with
  | [] => ret []
  | (_, location) :: rest =>
      docs <- search location q collapse limit ;;
      others <- search_each rest q collapse limit ;;
      ret (docs :: others)
  end.

(** Modelled from the spec: [query_all(q, collapse, limit)] queries every
    open handle, merges the result sequences by descending score and
    applies the limit to the merged sequence. *)
Definition query_all (q collapse : option string) (limit : string)
    : Eff t (list ScoredDoc) :=
  handles <- open_handles ;;
  per_index <- search_each handles q collapse limit ;;
  ret (take (limit_of env limit) (merge_results per_index)).

End WithEnv.

End DatabaseManager.

(** ** DatabaseCache (imports.databaseCache) *)

Module DatabaseCache.

(** Modelled from the spec: the file [databaseCache.js] is missing.  The
    Location Cache of spec section 4.1 is a durable mapping from index name
    to location. *)
Record t : Type := { entries : gmap string string }.

(** Modelled from the spec: [get_entries()] returns a snapshot of the
    mapping. *)
Definition get_entries : Eff t (gmap string string) :=
  λ c, (Normal (entries c), c).

Section WithEnv.
Context (env : Env).

(** Modelled from the spec: [set_entry(name, location)] upserts; a
    storage-layer failure surfaces to the caller as an error of its own
    kind, and then nothing was stored. *)
Definition set_entry (name location : string) : Eff t unit :=
  λ c, if storage_fails env (WriteEntry name location) (entries c)
       then (Throw ERR_STORAGE, c)
       else (Normal tt, {| entries := <[name := location]> (entries c) |}).

(** Modelled from the spec: [remove_entry(name)] removes the entry and is
    a no-op when the name is absent; storage failures surface as for
    [set_entry]. *)
Definition remove_entry (name : string) : Eff t unit :=
  λ c, if storage_fails env (DropEntry name) (entries c)
       then (Throw ERR_STORAGE, c)
       else (Normal tt, {| entries := delete name (entries c) |}).

End WithEnv.

End DatabaseCache.


(** ** libsoup: status codes and the response side of a message *)

Module Soup.

Module Status.
Definition OK : N := 200.
Definition BAD_REQUEST : N := 400.
Definition FORBIDDEN : N := 403.
Definition NOT_FOUND : N := 404.
Definition METHOD_NOT_ALLOWED : N := 405.
Definition INTERNAL_SERVER_ERROR : N := 500.
End Status.

Record Message : Type := {
  status_code : N;
  response_headers : gmap string string;
  response_body : option (string * string)      (* content type, text *)
}.

(** A message nobody has answered yet. *)
Definition fresh : Message :=
  {| status_code := 0; response_headers := ∅; response_body := None |}.

Definition set_status (msg : Message) (code : N) : Message :=
  {| status_code := code;
     response_headers := response_headers msg;
     response_body := response_body msg |}.

(** [msg.response_headers.replace(name, val)] *)
Definition replace_header (msg : Message) (name val : string) : Message :=
  {| status_code := status_code msg;
     response_headers := <[name := val]> (response_headers msg);
     response_body := response_body msg |}.

Definition set_response (msg : Message) (content_type text : string) : Message :=
  {| status_code := status_code msg;
     response_headers := response_headers msg;
     response_body := Some (content_type, text) |}.

End Soup.

(** ** xapianBridge.js *)

Definition MIME_JSON : string := "application/json".

(** Name of the pseudo index which triggers a query across all databases *)
Definition META_DATABASE_NAME : string := "_all".
(** Methods available to meta database resources. Used in Allow headers *)
Definition META_DATABASE_METHODS : string := "GET".

(** [JSON.stringify] on an array of documents. *)
Definition JSON_stringify (body : list ScoredDoc) : string :=
  "[" ++ String.concat "," (map payload body) ++ "]".

(** [res(soup_msg, status_code, headers, body)]: sets up a SoupMessage to
    respond.  An argument left out is [undefined], here [None]. *)
Definition res (soup_msg : Soup.Message) (status_code : N)
    (headers : option (list (string * string)))
    (body : option (list ScoredDoc)) : Soup.Message :=
  let msg1 := Soup.set_status soup_msg status_code in
  let msg2 :=
    match headers with
    | Some hs => foldl (λ m h, Soup.replace_header m h.1 h.2) msg1 hs
    | None => msg1
    end in
  match body with
  | Some b => Soup.set_response msg2 MIME_JSON (JSON_stringify b)
  | None => msg2
  end.

(** The two objects [main] creates and every handler closes over. *)
Record Server : Type := {
  manager : DatabaseManager.t;
  cache : DatabaseCache.t
}.

Definition on_manager {A} (op : Eff DatabaseManager.t A) : Eff Server A :=
  λ s, match op (manager s) with
       | (r, m') => (r, {| manager := m'; cache := cache s |})
       end.

Definition on_cache {A} (op : Eff DatabaseCache.t A) : Eff Server A :=
  λ s, match op (cache s) with
       | (r, c') => (r, {| manager := manager s; cache := c' |})
       end.

(** [print('ERR', e)]: standard output is not part of the model. *)
Definition print {S} (tag : string) (e : exn) : Eff S unit := ret tt.

(** The route parameters of [/:index_name]. *)
Record Params : Type := { index_name : string }.

Section Bridge.
Context (env : Env).

(** The loop of [main] over the stored database paths, lines 39-50. *)
Fixpoint replay (stored_database_paths : list (string * string)) : Eff Server unit :=
  match stored_database_paths with
  | [] => ret tt
  | (index_name, path) :: rest =>
      try_catch
        (on_manager (DatabaseManager.create_db env index_name path))
        (λ e,
           (* if the database info is incorrect (i.e. no database at path),
              remove that data from the cache *)
           if decide (e = ERR_INVALID_PATH)
           then on_cache (DatabaseCache.remove_entry env index_name)
           else ret tt) ;;
      replay rest
  end.

(** [main] up to the registration of the routes, lines 34-50: the cached
    database info is loaded and those databases are added; [for ... in]
    visits the entries in the order the object yields them. *)
Definition main : Eff Server unit :=
  stored_database_paths <- on_cache DatabaseCache.get_entries ;;
  replay (map_to_list stored_database_paths).

(** The state [main] starts from: a new manager and the cache as persisted. *)
Definition startup (persisted : gmap string string) : Server :=
  {| manager := DatabaseManager.new;
     cache := {| DatabaseCache.entries := persisted |} |}.

(** GET /:index_name, lines 56-63 *)
Definition get_index (params : Params) (query : gmap string string)
    (msg : Soup.Message) : Eff Server Soup.Message :=
  let index_name := index_name params in
  has <- on_manager (DatabaseManager.has_db index_name) ;;
  if has || bool_decide (index_name = META_DATABASE_NAME)
  then ret (res msg Soup.Status.OK None None)
  else ret (res msg Soup.Status.NOT_FOUND None None).

(** PUT /:index_name, lines 71-103.  The [try] statement completes with
    [None] when control falls through to the final [return]. *)
Definition put_index (params : Params) (query : gmap string string)
    (msg : Soup.Message) : Eff Server Soup.Message :=
  let index_name := index_name params in
  match query !! "path" with
  | None => ret (res msg Soup.Status.BAD_REQUEST None None)
  | Some path =>
      if decide (index_name = META_DATABASE_NAME)
      then ret (res msg Soup.Status.METHOD_NOT_ALLOWED
                  (Some [("Allow", META_DATABASE_METHODS)]) None)
      else
        has <- on_manager (DatabaseManager.has_db index_name) ;;
        returned <-
          (if negb has
           then
             try_catch
               ((* create the Xapian database and add it to the manager *)
                on_manager (DatabaseManager.create_db env index_name path) ;;
                (* add the index_name/path entry to the cache *)
                on_cache (DatabaseCache.set_entry env index_name path) ;;
                ret None)
               (λ e,
                  if decide (e = ERR_INVALID_PATH)
                  then ret (Some (res msg Soup.Status.FORBIDDEN None None))
                  else
                    print "ERR" e ;;
                    ret (Some (res msg Soup.Status.INTERNAL_SERVER_ERROR None None)))
           else ret None) ;;
        match returned with
        | Some response => ret response
        | None => ret (res msg Soup.Status.OK None None)
        end
  end.

(** The [try] block of the DELETE handler, lines 120-126. *)
Definition delete_index_try (index_name : string) (msg : Soup.Message)
    : Eff Server Soup.Message :=
  (* remove the database from the manager so it can't be queried *)
  on_manager (DatabaseManager.remove_db index_name) ;;
  (* remove the index_name/path entry from the cache *)
  on_cache (DatabaseCache.remove_entry env index_name) ;;
  ret (res msg Soup.Status.OK None None).

(** DELETE /:index_name, lines 111-130 *)
Definition delete_index (params : Params) (query : gmap string string)
    (msg : Soup.Message) : Eff Server Soup.Message :=
  let index_name := index_name params in
  if decide (index_name = META_DATABASE_NAME)
  then ret (res msg Soup.Status.METHOD_NOT_ALLOWED
              (Some [("Allow", META_DATABASE_METHODS)]) None)
  else
    try_catch
      (delete_index_try index_name msg)
      (λ e, ret (res msg Soup.Status.NOT_FOUND None None)).

(** GET /:index_name/query, lines 137-162 *)
Definition get_index_query (params : Params) (query : gmap string string)
    (msg : Soup.Message) : Eff Server Soup.Message :=
  let index_name := index_name params in
  let q := query !! "q" in
  let collapse_term := query !! "collapse" in
  match query !! "limit" with
  | None => ret (res msg Soup.Status.BAD_REQUEST None None)
  | Some limit =>
      try_catch
        (results <-
           (if decide (index_name = META_DATABASE_NAME)
            then on_manager (DatabaseManager.query_all env q collapse_term limit)
            else on_manager (DatabaseManager.query_db env index_name q collapse_term limit)) ;;
         ret (res msg Soup.Status.OK None (Some results)))
        (λ e,
           if decide (e = ERR_DATABASE_NOT_FOUND)
           then ret (res msg Soup.Status.NOT_FOUND None None)
           else
             print "ERR" e ;;
             ret (res msg Soup.Status.INTERNAL_SERVER_ERROR None None))
  end.

End Bridge.


(** ** The routes over arbitrary collaborators

    What the handlers do does not depend on how [DatabaseManager] and
    [DatabaseCache] are written: here the same code is read with the two
    objects as interfaces over any state. *)

Module Routes.

(** The methods of [manager] the file calls.  What a query method returns
    is handed to [res] as it is: an array of documents, or [undefined],
    here [None]. *)
Record Manager (S : Type) : Type := {
  has_db : string → Eff S bool;
  create_db : string → string → Eff S unit;
  remove_db : string → Eff S unit;
  query_db : string → option string → option string → string
             → Eff S (option (list ScoredDoc));
  query_all : option string → option string → string
              → Eff S (option (list ScoredDoc))
}.
Arguments has_db {S} _ _.
Arguments create_db {S} _ _ _.
Arguments remove_db {S} _ _.
Arguments query_db {S} _ _ _ _ _.
Arguments query_all {S} _ _ _ _.

(** The methods of [cache] the file calls. *)
Record Cache (S : Type) : Type := {
  get_entries : Eff S (gmap string string);
  set_entry : string → string → Eff S unit;
  remove_entry : string → Eff S unit
}.
Arguments get_entries {S} _.
Arguments set_entry {S} _ _ _.
Arguments remove_entry {S} _ _.

Section Generic.
Context {S : Type} (manager : Manager S) (cache : Cache S).

(** The loop of [main] over the stored database paths, lines 39-50. *)
Fixpoint replay (stored_database_paths : list (string * string)) : Eff S unit :=
  match stored_database_paths with
  | [] => ret tt
  | (index_name, path) :: rest =>
      try_catch
        (create_db manager index_name path)
        (λ e,
           if decide (e = ERR_INVALID_PATH)
           then remove_entry cache index_name
           else ret tt) ;;
      replay rest
  end.

(** [main], lines 38-50. *)
Definition main : Eff S unit :=
  stored_database_paths <- get_entries cache ;;
  replay (map_to_list stored_database_paths).

(** GET /:index_name, lines 56-63 *)
Definition get_index (params : Params) (query : gmap string string)
    (msg : Soup.Message) : Eff S Soup.Message :=
  let index_name := index_name params in
  has <- has_db manager index_name ;;
  if has || bool_decide (index_name = META_DATABASE_NAME)
  then ret (res msg Soup.Status.OK None None)
  else ret (res msg Soup.Status.NOT_FOUND None None).

(** PUT /:index_name, lines 71-103 *)
Definition put_index (params : Params) (query : gmap string string)
    (msg : Soup.Message) : Eff S Soup.Message :=
  let index_name := index_name params in
  match query !! "path" with
  | None => ret (res msg Soup.Status.BAD_REQUEST None None)
  | Some path =>
      if decide (index_name = META_DATABASE_NAME)
      then ret (res msg Soup.Status.METHOD_NOT_ALLOWED
                  (Some [("Allow", META_DATABASE_METHODS)]) None)
      else
        has <- has_db manager index_name ;;
        returned <-
          (if negb has
           then
             try_catch
               (create_db manager index_name path ;;
                set_entry cache index_name path ;;
                ret None)
               (λ e,
                  if decide (e = ERR_INVALID_PATH)
                  then ret (Some (res msg Soup.Status.FORBIDDEN None None))
                  else
                    print "ERR" e ;;
                    ret (Some (res msg Soup.Status.INTERNAL_SERVER_ERROR None None)))
           else ret None) ;;
        match returned with
        | Some response => ret response
        | None => ret (res msg Soup.Status.OK None None)
        end
  end.

(** The [try] block of the DELETE handler, lines 120-126. *)
Definition delete_index_try (index_name : string) (msg : Soup.Message)
    : Eff S Soup.Message :=
  remove_db manager index_name ;;
  remove_entry cache index_name ;;
  ret (res msg Soup.Status.OK None None).

(** DELETE /:index_name, lines 111-130 *)
Definition delete_index (params : Params) (query : gmap string string)
    (msg : Soup.Message) : Eff S Soup.Message :=
  let index_name := index_name params in
  if decide (index_name = META_DATABASE_NAME)
  then ret (res msg Soup.Status.METHOD_NOT_ALLOWED
              (Some [("Allow", META_DATABASE_METHODS)]) None)
  else
    try_catch
      (delete_index_try index_name msg)
      (λ e, ret (res msg Soup.Status.NOT_FOUND None None)).

(** The call the query handler makes on the manager, lines 148-152. *)
Definition run_query (index_name : string) (q collapse_term : option string)
    (limit : string) : Eff S (option (list ScoredDoc)) :=
  if decide (index_name = META_DATABASE_NAME)
  then query_all manager q collapse_term limit
  else query_db manager index_name q collapse_term limit.

(** GET /:index_name/query, lines 137-162 *)
Definition get_index_query (params : Params) (query : gmap string string)
    (msg : Soup.Message) : Eff S Soup.Message :=
  let index_name := index_name params in
  let q := query !! "q" in
  let collapse_term := query !! "collapse" in
  match query !! "limit" with
  | None => ret (res msg Soup.Status.BAD_REQUEST None None)
  | Some limit =>
      try_catch
        (results <- run_query index_name q collapse_term limit ;;
         ret (res msg Soup.Status.OK None results))
        (λ e,
           if decide (e = ERR_DATABASE_NOT_FOUND)
           then ret (res msg Soup.Status.NOT_FOUND None None)
           else
             print "ERR" e ;;
             ret (res msg Soup.Status.INTERNAL_SERVER_ERROR None None))
  end.

End Generic.

End Routes.

(** The manager and the cache of the model, as such collaborators. *)
Definition modelled_manager (env : Env) : Routes.Manager Server :=
  {| Routes.has_db := λ name, on_manager (DatabaseManager.has_db name);
     Routes.create_db := λ name path, on_manager (DatabaseManager.create_db env name path);
     Routes.remove_db := λ name, on_manager (DatabaseManager.remove_db name);
     Routes.query_db := λ name q collapse limit,
       results <- on_manager (DatabaseManager.query_db env name q collapse limit) ;;
       ret (Some results);
     Routes.query_all := λ q collapse limit,
       results <- on_manager (DatabaseManager.query_all env q collapse limit) ;;
       ret (Some results) |}.

Definition modelled_cache (env : Env) : Routes.Cache Server :=
  {| Routes.get_entries := on_cache DatabaseCache.get_entries;
     Routes.set_entry := λ name path, on_cache (DatabaseCache.set_entry env name path);
     Routes.remove_entry := λ name, on_cache (DatabaseCache.remove_entry env name) |}.

(** ** Choosing the socket, lines 17-32 of [main]

    [GLib.getenv] and [parseInt] are the platform's; a JavaScript number is
    kept abstract, with its test [isNaN]. *)

Definition DEFAULT_PORT : Z := 3004.

Section Listen.
Context {number : Type} (NaN : number) (isNaN : number → bool).
Context (getenv : string → option string) (parseInt : string → Z → number).

(** The call [main] makes on the server. *)
Inductive Listening : Type :=
  | listen_fd (fd : number) (flags : Z)
  | listen_local (port : Z) (flags : Z).

Definition main_listen : Listening :=
  let fd := NaN in
  (* If this service is launched by systemd, LISTEN_PID and LISTEN_FDS will
     be set by systemd and we should set up the server to use the fd instead
     of a port *)
  let fd :=
    match getenv "LISTEN_PID" with
    | Some _ =>
        match getenv "LISTEN_FDS" with
        | Some fd_string => parseInt fd_string 10
        | None => fd
        end
    | None => fd
    end in
  if negb (isNaN fd)
  then listen_fd fd 0
  else listen_local DEFAULT_PORT 0.

End Listen.


(** ** Vocabulary of the statements *)

(** The name has an open handle. *)
Definition opened (s : Server) (name : string) : Prop :=
  is_Some (DatabaseManager.databases (manager s) !! name).

(** Spec section 3 requires that no handle is named by the reserved
    meta-name; the same is asked of the cache the next start replays. *)
Definition reserved_name_free (s : Server) : Prop :=
  DatabaseManager.databases (manager s) !! META_DATABASE_NAME = None
  ∧ DatabaseCache.entries (cache s) !! META_DATABASE_NAME = None.

(** The server after one more engine call was logged. *)
Definition with_log (s : Server) (c : EngineCall) : Server :=
  {| manager :=
       {| DatabaseManager.databases := DatabaseManager.databases (manager s);
          DatabaseManager.engine_log := DatabaseManager.engine_log (manager s) ++ [c] |};
     cache := cache s |}.

(** The server after a handle was opened, and after one was released. *)
Definition with_handle (s : Server) (name path : string) : Server :=
  {| manager :=
       {| DatabaseManager.databases := <[name := path]> (DatabaseManager.databases (manager s));
          DatabaseManager.engine_log := DatabaseManager.engine_log (manager s) |};
     cache := cache s |}.

Definition without_handle (s : Server) (name : string) : Server :=
  {| manager :=
       {| DatabaseManager.databases := delete name (DatabaseManager.databases (manager s));
          DatabaseManager.engine_log := DatabaseManager.engine_log (manager s) |};
     cache := cache s |}.

(** Descending order of score. *)
Definition score_ge (d1 d2 : ScoredDoc) : Prop := (score d2 ≤ score d1)%Z.


(** The cache lists exactly the open handles, each with its location. *)
Definition in_sync (s : Server) : Prop :=
  DatabaseCache.entries (cache s) = DatabaseManager.databases (manager s).

(** The storage layer of the environment never fails. *)
Definition healthy_storage (env : Env) : Prop :=
  ∀ op stored, storage_fails env op stored = false.

(** The statuses a handler may answer with. *)
Definition answered (response : Soup.Message) (statuses : list N) : Prop :=
  Soup.status_code response ∈ statuses.

(** The entries of a cache whose location holds an openable index. *)
Definition openable (env : Env) (stored : gmap string string) : gmap string string :=
  filter (λ entry, valid_path env entry.2 = true) stored.

(** ** A concrete deployment, for the examples *)

Module Scenario.

(** The limit parameter read as a decimal number. *)
Fixpoint decimal (digits : string) (acc : nat) : nat :=
  match digits with
  | EmptyString => acc
  | String c rest => decimal rest (10 * acc + (Ascii.nat_of_ascii c - 48))
  end.

Definition docs_A : list ScoredDoc :=
  [ {| score := 90; payload := "11" |}; {| score := 40; payload := "12" |} ].

Definition docs_B : list ScoredDoc :=
  [ {| score := 75; payload := "21" |}; {| score := 40; payload := "22" |};
    {| score := 10; payload := "23" |} ].

(** Indices exist at four locations; the one at [/data/broken] opens but
    its engine handle fails on every search.  [disk_full] makes every write
    to the cache's storage fail. *)
Definition world (disk_full : bool) : Env :=
  {| valid_path := λ location,
       bool_decide (location ∈ ["/valid/path"; "/data/A"; "/data/B"; "/data/broken"]);
     engine_search := λ location q collapse limit,
       if decide (location = "/data/A") then Some docs_A
       else if decide (location = "/data/B") then Some docs_B
       else if decide (location = "/data/broken") then None
       else Some [];
     limit_of := λ limit, decimal limit 0;
     storage_fails := λ op stored, disk_full |}.

(** The cache of the startup scenario of spec section 8. *)
Definition persisted : gmap string string :=
  {[ "idx1" := "/valid/path"; "idx2" := "/missing/path" ]}.

Definition serving (databases : gmap string string) : Server :=
  {| manager := {| DatabaseManager.databases := databases;
                   DatabaseManager.engine_log := [] |};
     cache := {| DatabaseCache.entries := databases |} |}.

(** A server with the one index [idx1] open, and one with [A] and [B]. *)
Definition one_index : Server := serving {[ "idx1" := "/valid/path" ]}.

Definition two_indices : Server := serving {[ "A" := "/data/A"; "B" := "/data/B" ]}.

Definition with_broken : Server :=
  serving {[ "A" := "/data/A"; "X" := "/data/broken" ]}.

Definition nothing_open : Server := serving ∅.

(** Collaborators that only record which of their methods were called:
    the state is the list of calls, [has_db] answers [has], the other
    methods of the manager throw [e] when one is given; [query_db] returns
    an array and [query_all] returns [undefined]. *)
Definition called {A} (method : string) (result : completion A) : Eff (list string) A :=
  λ calls, (result, (calls ++ [method])%list).

Definition scripted_manager (has : bool) (e : option exn) : Routes.Manager (list string) :=
  let outcome {A} (a : A) : completion A :=
    match e with Some e => Throw e | None => Normal a end in
  {| Routes.has_db := λ _, called "has_db" (Normal has);
     Routes.create_db := λ _ _, called "create_db" (outcome tt);
     Routes.remove_db := λ _, called "remove_db" (outcome tt);
     Routes.query_db := λ _ _ _ _, called "query_db" (outcome (Some docs_A));
     Routes.query_all := λ _ _ _, called "query_all" (outcome None) |}.

Definition scripted_cache (stored : gmap string string) : Routes.Cache (list string) :=
  {| Routes.get_entries := called "get_entries" (Normal stored);
     Routes.set_entry := λ _ _, called "set_entry" (Normal tt);
     Routes.remove_entry := λ _, called "remove_entry" (Normal tt) |}.

(** The environment variables as systemd sets them for one inherited
    socket; JavaScript numbers as [option Z], [None] for NaN. *)
Definition systemd_getenv (variable : string) : option string :=
  ({[ "LISTEN_PID" := "812"; "LISTEN_FDS" := "1" ]} : gmap string string) !! variable.

Definition parse_digits (text : string) (radix : Z) : option Z :=
  Some (Z.of_nat (decimal text 0)).

Definition is_NaN (x : option Z) : bool := bool_decide (x = None).

End Scenario.


(** * Properties *)

(** ** Unfolding the monad *)

Ltac eff_unfold :=
  unfold get_index, put_index, delete_index, delete_index_try, get_index_query,
    main,
    DatabaseManager.has_db, DatabaseManager.create_db, DatabaseManager.remove_db,
    DatabaseManager.query_db, DatabaseManager.search, DatabaseManager.handle_of,
    DatabaseManager.log, DatabaseManager.open_handle, DatabaseManager.close_handle,
    DatabaseCache.get_entries, DatabaseCache.set_entry, DatabaseCache.remove_entry,
    print, on_manager, on_cache, try_catch, bind, ret, throw in *.

Lemma bind_normal {S A B} (m : Eff S A) (k : A → Eff S B) s a s' :
  m s = (Normal a, s') → bind m k s = k a s'.
Proof. unfold bind. by intros ->. Qed.

Lemma server_eta (s : Server) : {| manager := manager s; cache := cache s |} = s.
Proof. by destruct s. Qed.

(** The response [res] builds, field by field. *)
Lemma replace_headers_status hs msg :
  Soup.status_code (foldl (λ m h, Soup.replace_header m h.1 h.2) msg hs)
  = Soup.status_code msg.
Proof. revert msg. induction hs as [|h hs IH]; intros msg; simpl; [done|]. by rewrite IH. Qed.

Lemma replace_headers_body hs msg :
  Soup.response_body (foldl (λ m h, Soup.replace_header m h.1 h.2) msg hs)
  = Soup.response_body msg.
Proof. revert msg. induction hs as [|h hs IH]; intros msg; simpl; [done|]. by rewrite IH. Qed.

Lemma res_status msg code headers body :
  Soup.status_code (res msg code headers body) = code.
Proof.
  unfold res. destruct body as [b|], headers as [hs|]; simpl;
    by rewrite ?replace_headers_status.
Qed.

Lemma res_no_body msg code headers :
  Soup.response_body (res msg code headers None) = Soup.response_body msg.
Proof.
  unfold res. destruct headers as [hs|]; simpl; by rewrite ?replace_headers_body.
Qed.

Lemma res_body msg code headers docs :
  Soup.response_body (res msg code headers (Some docs))
  = Some (MIME_JSON, JSON_stringify docs).
Proof. unfold res. by destruct headers. Qed.

Lemma res_allow msg code :
  Soup.response_headers
    (res msg code (Some [("Allow", META_DATABASE_METHODS)]) None) !! "Allow"
  = Some "GET".
Proof. unfold res. simpl. by rewrite lookup_insert_eq. Qed.

(** ** Equations of the manager and the cache, seen from the server *)

Section Operations.
Context (env : Env).
Implicit Types (s : Server) (name path : string).

Lemma has_db_eq s name :
  on_manager (DatabaseManager.has_db name) s
  = (Normal (bool_decide (opened s name)), s).
Proof. eff_unfold. simpl. by rewrite server_eta. Qed.

Lemma create_db_open s name path :
  opened s name →
  on_manager (DatabaseManager.create_db env name path) s = (Normal tt, s).
Proof. intros [loc Hloc]. eff_unfold. simpl. rewrite Hloc. by rewrite server_eta. Qed.

Lemma create_db_valid s name path :
  ¬ opened s name → valid_path env path = true →
  on_manager (DatabaseManager.create_db env name path) s
  = (Normal tt, with_handle (with_log s (OpenIndex path)) name path).
Proof.
  intros Hno Hv. eff_unfold. simpl.
  destruct (DatabaseManager.databases (manager s) !! name) eqn:Hn.
  { destruct Hno. by eexists. }
  simpl. by rewrite Hv.
Qed.

Lemma create_db_invalid s name path :
  ¬ opened s name → valid_path env path = false →
  on_manager (DatabaseManager.create_db env name path) s
  = (Throw ERR_INVALID_PATH, with_log s (OpenIndex path)).
Proof.
  intros Hno Hv. eff_unfold. simpl.
  destruct (DatabaseManager.databases (manager s) !! name) eqn:Hn.
  { destruct Hno. by eexists. }
  simpl. by rewrite Hv.
Qed.

Lemma remove_db_open s name :
  opened s name →
  on_manager (DatabaseManager.remove_db name) s = (Normal tt, without_handle s name).
Proof. intros [loc Hloc]. eff_unfold. simpl. by rewrite Hloc. Qed.

Lemma remove_db_absent s name :
  ¬ opened s name →
  on_manager (DatabaseManager.remove_db name) s = (Throw ERR_DATABASE_NOT_FOUND, s).
Proof.
  intros Hno. eff_unfold. simpl.
  destruct (DatabaseManager.databases (manager s) !! name) eqn:Hn.
  { destruct Hno. by eexists. }
  simpl. by rewrite server_eta.
Qed.

Lemma set_entry_fails s name path :
  storage_fails env (WriteEntry name path) (DatabaseCache.entries (cache s)) = true →
  on_cache (DatabaseCache.set_entry env name path) s = (Throw ERR_STORAGE, s).
Proof. intros Hf. eff_unfold. rewrite Hf. by rewrite server_eta. Qed.

Lemma set_entry_stores s name path :
  storage_fails env (WriteEntry name path) (DatabaseCache.entries (cache s)) = false →
  on_cache (DatabaseCache.set_entry env name path) s
  = (Normal tt,
     {| manager := manager s;
        cache := {| DatabaseCache.entries := <[name := path]> (DatabaseCache.entries (cache s)) |} |}).
Proof. intros Hf. eff_unfold. by rewrite Hf. Qed.

Lemma remove_entry_fails s name :
  storage_fails env (DropEntry name) (DatabaseCache.entries (cache s)) = true →
  on_cache (DatabaseCache.remove_entry env name) s = (Throw ERR_STORAGE, s).
Proof. intros Hf. eff_unfold. rewrite Hf. by rewrite server_eta. Qed.

Lemma remove_entry_drops s name :
  storage_fails env (DropEntry name) (DatabaseCache.entries (cache s)) = false →
  on_cache (DatabaseCache.remove_entry env name) s
  = (Normal tt,
     {| manager := manager s;
        cache := {| DatabaseCache.entries := delete name (DatabaseCache.entries (cache s)) |} |}).
Proof. intros Hf. eff_unfold. by rewrite Hf. Qed.

End Operations.

(** ** The handlers, case by case *)

Section Handlers.
Context (env : Env).
Implicit Types (s : Server) (name path : string) (query : gmap string string)
  (msg : Soup.Message).

Lemma put_index_no_path name query msg s :
  query !! "path" = None →
  put_index env {| index_name := name |} query msg s
  = (Normal (res msg Soup.Status.BAD_REQUEST None None), s).
Proof. intros Hq. unfold put_index. simpl. by rewrite Hq. Qed.

Lemma put_index_meta query msg s path :
  query !! "path" = Some path →
  put_index env {| index_name := META_DATABASE_NAME |} query msg s
  = (Normal (res msg Soup.Status.METHOD_NOT_ALLOWED
               (Some [("Allow", META_DATABASE_METHODS)]) None), s).
Proof. intros Hq. unfold put_index. simpl. by rewrite Hq. Qed.

Lemma put_index_open name query msg s path :
  query !! "path" = Some path → name ≠ META_DATABASE_NAME → opened s name →
  put_index env {| index_name := name |} query msg s
  = (Normal (res msg Soup.Status.OK None None), s).
Proof.
  intros Hq Hne Hop. unfold put_index. simpl. rewrite Hq, decide_False by done.
  erewrite bind_normal by apply has_db_eq.
  rewrite bool_decide_eq_true_2 by done. done.
Qed.

Lemma put_index_invalid name query msg s path :
  query !! "path" = Some path → name ≠ META_DATABASE_NAME → ¬ opened s name →
  valid_path env path = false →
  put_index env {| index_name := name |} query msg s
  = (Normal (res msg Soup.Status.FORBIDDEN None None), with_log s (OpenIndex path)).
Proof.
  intros Hq Hne Hop Hv. unfold put_index. simpl. rewrite Hq, decide_False by done.
  erewrite bind_normal by apply has_db_eq.
  rewrite bool_decide_eq_false_2 by done. simpl.
  unfold try_catch, bind at 1 2.
  by erewrite create_db_invalid.
Qed.

Lemma put_index_unstored name query msg s path :
  query !! "path" = Some path → name ≠ META_DATABASE_NAME → ¬ opened s name →
  valid_path env path = true →
  storage_fails env (WriteEntry name path) (DatabaseCache.entries (cache s)) = true →
  put_index env {| index_name := name |} query msg s
  = (Normal (res msg Soup.Status.INTERNAL_SERVER_ERROR None None),
     with_handle (with_log s (OpenIndex path)) name path).
Proof.
  intros Hq Hne Hop Hv Hf. unfold put_index. simpl. rewrite Hq, decide_False by done.
  erewrite bind_normal by apply has_db_eq.
  rewrite bool_decide_eq_false_2 by done. simpl.
  unfold try_catch, bind at 1 2.
  erewrite create_db_valid by done.
  unfold bind at 1. by rewrite set_entry_fails.
Qed.

Lemma put_index_created name query msg s path :
  query !! "path" = Some path → name ≠ META_DATABASE_NAME → ¬ opened s name →
  valid_path env path = true →
  storage_fails env (WriteEntry name path) (DatabaseCache.entries (cache s)) = false →
  put_index env {| index_name := name |} query msg s
  = (Normal (res msg Soup.Status.OK None None),
     {| manager := manager (with_handle (with_log s (OpenIndex path)) name path);
        cache := {| DatabaseCache.entries :=
                      <[name := path]> (DatabaseCache.entries (cache s)) |} |}).
Proof.
  intros Hq Hne Hop Hv Hf. unfold put_index. simpl. rewrite Hq, decide_False by done.
  erewrite bind_normal by apply has_db_eq.
  rewrite bool_decide_eq_false_2 by done. simpl.
  unfold try_catch, bind at 1 2.
  erewrite create_db_valid by done.
  unfold bind at 1. by rewrite set_entry_stores.
Qed.

Lemma delete_index_meta query msg s :
  delete_index env {| index_name := META_DATABASE_NAME |} query msg s
  = (Normal (res msg Soup.Status.METHOD_NOT_ALLOWED
               (Some [("Allow", META_DATABASE_METHODS)]) None), s).
Proof. done. Qed.

Lemma delete_index_caught name query msg s e s' :
  name ≠ META_DATABASE_NAME →
  delete_index_try env name msg s = (Throw e, s') →
  delete_index env {| index_name := name |} query msg s
  = (Normal (res msg Soup.Status.NOT_FOUND None None), s').
Proof.
  intros Hne Hth. unfold delete_index. simpl. rewrite decide_False by done.
  unfold try_catch. by rewrite Hth.
Qed.

Lemma delete_index_try_absent name msg s :
  ¬ opened s name →
  delete_index_try env name msg s = (Throw ERR_DATABASE_NOT_FOUND, s).
Proof. intros Hop. unfold delete_index_try, bind. by rewrite remove_db_absent. Qed.

Lemma delete_index_try_unstored name msg s :
  opened s name →
  storage_fails env (DropEntry name) (DatabaseCache.entries (cache s)) = true →
  delete_index_try env name msg s = (Throw ERR_STORAGE, without_handle s name).
Proof.
  intros Hop Hf. unfold delete_index_try, bind. rewrite remove_db_open by done.
  by rewrite remove_entry_fails.
Qed.

Lemma delete_index_removed name query msg s :
  name ≠ META_DATABASE_NAME → opened s name →
  storage_fails env (DropEntry name) (DatabaseCache.entries (cache s)) = false →
  delete_index env {| index_name := name |} query msg s
  = (Normal (res msg Soup.Status.OK None None),
     {| manager := manager (without_handle s name);
        cache := {| DatabaseCache.entries :=
                      delete name (DatabaseCache.entries (cache s)) |} |}).
Proof.
  intros Hne Hop Hf. unfold delete_index. simpl. rewrite decide_False by done.
  unfold try_catch, delete_index_try, bind. rewrite remove_db_open by done.
  by rewrite remove_entry_drops.
Qed.

End Handlers.

(** ** Merging by score *)

Section Merging.

Lemma insert_by_score_perm d l :
  DatabaseManager.insert_by_score d l ≡ₚ d :: l.
Proof.
  induction l as [|d' l IH]; simpl; [done|].
  destruct (score d' <=? score d)%Z; [done|].
  rewrite IH. apply Permutation_swap.
Qed.

Lemma insert_by_score_sorted d l :
  StronglySorted score_ge l →
  StronglySorted score_ge (DatabaseManager.insert_by_score d l).
Proof.
  induction 1 as [|d' l Hl IH Hall]; simpl.
  { repeat constructor. }
  destruct (score d' <=? score d)%Z eqn:Hcmp.
  - apply Z.leb_le in Hcmp. constructor; [by constructor|].
    constructor; [done|].
    eapply Forall_impl; [exact Hall|]. unfold score_ge. intros x Hx. lia.
  - apply Z.leb_gt in Hcmp. constructor; [done|].
    rewrite insert_by_score_perm. constructor; [|done].
    unfold score_ge. lia.
Qed.

Lemma merge_results_perm per_index :
  DatabaseManager.merge_results per_index ≡ₚ concat per_index.
Proof.
  unfold DatabaseManager.merge_results.
  induction (concat per_index) as [|d l IH]; simpl; [done|].
  by rewrite insert_by_score_perm, IH.
Qed.

Lemma merge_results_sorted per_index :
  StronglySorted score_ge (DatabaseManager.merge_results per_index).
Proof.
  unfold DatabaseManager.merge_results.
  induction (concat per_index) as [|d l IH]; simpl; [constructor|].
  by apply insert_by_score_sorted.
Qed.

Lemma take_sorted n (l : list ScoredDoc) :
  StronglySorted score_ge l → StronglySorted score_ge (take n l).
Proof.
  intros Hl. rewrite <- (take_drop n l) in Hl.
  by apply StronglySorted_app_1_l in Hl.
Qed.

End Merging.

(** ** The fan-out over the open handles *)

Section FanOut.
Context (env : Env).
Implicit Types (m : DatabaseManager.t) (q collapse : option string) (limit : string).

(** One search logs the call and reports what the engine answered. *)
Lemma search_eq m location q collapse limit :
  DatabaseManager.search env location q collapse limit m
  = (match engine_search env location q collapse limit with
     | Some docs => Normal docs
     | None => Throw ERR_ENGINE_FAILURE
     end,
     {| DatabaseManager.databases := DatabaseManager.databases m;
        DatabaseManager.engine_log :=
          DatabaseManager.engine_log m ++ [Search location q collapse limit] |}).
Proof.
  unfold DatabaseManager.search, DatabaseManager.log, bind, ret, throw.
  by destruct (engine_search env location q collapse limit).
Qed.

Lemma search_each_ok handles q collapse limit m :
  Forall (λ h, is_Some (engine_search env h.2 q collapse limit)) handles →
  ∃ per_index m',
    DatabaseManager.search_each env handles q collapse limit m = (Normal per_index, m')
    ∧ Forall2 (λ h docs, engine_search env h.2 q collapse limit = Some docs)
        handles per_index
    ∧ DatabaseManager.databases m' = DatabaseManager.databases m.
Proof.
  intros Hall. revert m.
  induction Hall as [|[name location] handles [docs Hdocs] Hall IH]; intros m; simpl.
  { by exists [], m. }
  unfold bind at 1. rewrite search_eq. simpl in Hdocs. rewrite Hdocs.
  cbv beta iota. unfold bind at 1.
  match goal with |- context [DatabaseManager.search_each _ _ _ _ _ ?m1] =>
    destruct (IH m1) as (per_index & m' & Heach & Hres & Hdb) end.
  rewrite Heach. unfold ret.
  exists (docs :: per_index), m'. split; [done|]. split; [|done].
  by constructor.
Qed.

Lemma search_each_fails handles q collapse limit m :
  Exists (λ h, engine_search env h.2 q collapse limit = None) handles →
  ∃ m',
    DatabaseManager.search_each env handles q collapse limit m
    = (Throw ERR_ENGINE_FAILURE, m')
    ∧ DatabaseManager.databases m' = DatabaseManager.databases m.
Proof.
  intros Hex. revert m.
  induction handles as [|[name location] handles IH]; intros m.
  { by apply Exists_nil in Hex. }
  simpl. unfold bind at 1. rewrite search_eq.
  destruct (engine_search env location q collapse limit) as [docs|] eqn:Hdocs.
  - apply Exists_cons in Hex as [Hex|Hex]; [simpl in Hex; congruence|].
    cbv beta iota. unfold bind at 1.
    match goal with |- context [DatabaseManager.search_each _ _ _ _ _ ?m1] =>
      destruct (IH Hex m1) as (m' & Heach & Hdb) end.
    rewrite Heach. by exists m'.
  - by eexists.
Qed.

Lemma Forall2_impl_elem {A B} (P Q : A → B → Prop) (l : list A) (k : list B) :
  Forall2 P l k → (∀ x y, x ∈ l → P x y → Q x y) → Forall2 Q l k.
Proof.
  induction 1 as [|x y l k Hxy Hlk IH]; intros Himpl; constructor.
  - apply Himpl; [by left|done].
  - apply IH. intros x' y' Hin. apply Himpl. by right.
Qed.

Lemma query_db_open m name location q collapse limit :
  DatabaseManager.databases m !! name = Some location →
  DatabaseManager.query_db env name q collapse limit m
  = DatabaseManager.search env location q collapse limit m.
Proof.
  intros Hn. unfold DatabaseManager.query_db, DatabaseManager.handle_of, bind at 1.
  by rewrite Hn.
Qed.

Lemma query_db_absent m name q collapse limit :
  DatabaseManager.databases m !! name = None →
  DatabaseManager.query_db env name q collapse limit m
  = (Throw ERR_DATABASE_NOT_FOUND, m).
Proof.
  intros Hn. unfold DatabaseManager.query_db, DatabaseManager.handle_of, bind at 1.
  by rewrite Hn.
Qed.

End FanOut.

(** ** The query handler *)

Section QueryHandler.
Context (env : Env).
Implicit Types (s : Server) (query : gmap string string) (msg : Soup.Message).

(** What the handler answers once the manager's call has completed. *)
Lemma answer_eq (op : Eff DatabaseManager.t (list ScoredDoc)) msg s r m' :
  op (manager s) = (r, m') →
  try_catch
    (results <- on_manager op ;;
     ret (res msg Soup.Status.OK None (Some results)))
    (λ e,
       if decide (e = ERR_DATABASE_NOT_FOUND)
       then ret (res msg Soup.Status.NOT_FOUND None None)
       else
         print "ERR" e ;;
         ret (res msg Soup.Status.INTERNAL_SERVER_ERROR None None)) s
  = (Normal
       match r with
       | Normal results => res msg Soup.Status.OK None (Some results)
       | Throw e =>
           if decide (e = ERR_DATABASE_NOT_FOUND)
           then res msg Soup.Status.NOT_FOUND None None
           else res msg Soup.Status.INTERNAL_SERVER_ERROR None None
       end,
     {| manager := m'; cache := cache s |}).
Proof.
  intros Hop. unfold try_catch, bind at 1, on_manager. rewrite Hop.
  destruct r as [results|e]; [done|].
  by destruct (decide (e = ERR_DATABASE_NOT_FOUND)).
Qed.

Lemma get_index_query_no_limit name query msg s :
  query !! "limit" = None →
  get_index_query env {| index_name := name |} query msg s
  = (Normal (res msg Soup.Status.BAD_REQUEST None None), s).
Proof. intros Hq. unfold get_index_query. simpl. by rewrite Hq. Qed.

Lemma get_index_query_meta query msg s limit r m' :
  query !! "limit" = Some limit →
  DatabaseManager.query_all env (query !! "q") (query !! "collapse") limit (manager s)
  = (r, m') →
  get_index_query env {| index_name := META_DATABASE_NAME |} query msg s
  = (Normal
       match r with
       | Normal results => res msg Soup.Status.OK None (Some results)
       | Throw e =>
           if decide (e = ERR_DATABASE_NOT_FOUND)
           then res msg Soup.Status.NOT_FOUND None None
           else res msg Soup.Status.INTERNAL_SERVER_ERROR None None
       end,
     {| manager := m'; cache := cache s |}).
Proof.
  intros Hq Hop. unfold get_index_query. simpl. rewrite Hq.
  by apply answer_eq.
Qed.

Lemma get_index_query_named name query msg s limit r m' :
  query !! "limit" = Some limit → name ≠ META_DATABASE_NAME →
  DatabaseManager.query_db env name (query !! "q") (query !! "collapse") limit (manager s)
  = (r, m') →
  get_index_query env {| index_name := name |} query msg s
  = (Normal
       match r with
       | Normal results => res msg Soup.Status.OK None (Some results)
       | Throw e =>
           if decide (e = ERR_DATABASE_NOT_FOUND)
           then res msg Soup.Status.NOT_FOUND None None
           else res msg Soup.Status.INTERNAL_SERVER_ERROR None None
       end,
     {| manager := m'; cache := cache s |}).
Proof.
  intros Hq Hne Hop. unfold get_index_query. simpl. rewrite Hq.
  rewrite decide_False by done. by apply answer_eq.
Qed.

End QueryHandler.

(** ** The startup replay *)

Section Replay.
Context (env : Env).
Implicit Types (s : Server) (stored : list (string * string)).

Lemma replay_cons name path stored :
  replay env ((name, path) :: stored)
  = (try_catch
       (on_manager (DatabaseManager.create_db env name path))
       (λ e,
          if decide (e = ERR_INVALID_PATH)
          then on_cache (DatabaseCache.remove_entry env name)
          else ret tt) ;;
     replay env stored).
Proof. done. Qed.

Lemma replay_spec stored s :
  NoDup stored.*1 →
  (∀ name c, storage_fails env (DropEntry name) c = false) →
  (∀ name, name ∈ stored.*1 → ¬ opened s name) →
  ∃ s',
    replay env stored s = (Normal tt, s')
    ∧ DatabaseManager.engine_log (manager s')
      = (DatabaseManager.engine_log (manager s) ++ map (λ h, OpenIndex h.2) stored)%list
    ∧ (∀ name path, (name, path) ∈ stored → valid_path env path = true →
         DatabaseManager.databases (manager s') !! name = Some path
         ∧ DatabaseCache.entries (cache s') !! name
           = DatabaseCache.entries (cache s) !! name)
    ∧ (∀ name path, (name, path) ∈ stored → valid_path env path = false →
         DatabaseManager.databases (manager s') !! name = None
         ∧ DatabaseCache.entries (cache s') !! name = None)
    ∧ (∀ name, name ∉ stored.*1 →
         DatabaseManager.databases (manager s') !! name
         = DatabaseManager.databases (manager s) !! name
         ∧ DatabaseCache.entries (cache s') !! name
           = DatabaseCache.entries (cache s) !! name).
Proof.
  intros Hnd Hstorage. revert s.
  induction stored as [|[name path] rest IH]; intros s Hfresh.
  { exists s. simpl. rewrite app_nil_r. do 2 (split; [done|]).
    split; [|split]; [intros n p Hin _; by apply elem_of_nil in Hin..|done]. }
  simpl in Hnd. apply NoDup_cons in Hnd as [Hname Hnd].
  assert (Hclosed : ¬ opened s name) by (apply Hfresh; simpl; left).
  assert (Hnone : DatabaseManager.databases (manager s) !! name = None).
  { destruct (DatabaseManager.databases (manager s) !! name) eqn:E; [|done].
    destruct Hclosed. by eexists. }
  rewrite replay_cons. unfold bind at 1, try_catch.
  destruct (valid_path env path) eqn:Hv.
  - rewrite (create_db_valid env s name path) by done.
    destruct (IH Hnd (with_handle (with_log s (OpenIndex path)) name path))
      as (s' & Hrun & Hlog & Hval & Hinv & Hrest).
    { intros n Hn [loc Hloc]. simpl in Hloc.
      rewrite lookup_insert_ne in Hloc by (intros ->; done).
      apply (Hfresh n); [simpl; by right|by eexists]. }
    exists s'. split; [done|]. split.
    { rewrite Hlog. simpl. by rewrite <- app_assoc. }
    split; [|split].
    + intros n p Hin Hvp. apply elem_of_cons in Hin as [[= -> ->]|Hin].
      * destruct (Hrest name Hname) as [-> ->]. simpl.
        by rewrite lookup_insert_eq.
      * destruct (Hval n p Hin Hvp) as [-> ->]. done.
    + intros n p Hin Hvp. apply elem_of_cons in Hin as [[= -> ->]|Hin]; [congruence|].
      by apply (Hinv n p).
    + intros n Hn. apply not_elem_of_cons in Hn as [Hne Hn].
      destruct (Hrest n Hn) as [-> ->]. simpl. by rewrite lookup_insert_ne.
  - rewrite (create_db_invalid env s name path) by done.
    rewrite decide_True by done.
    rewrite remove_entry_drops by apply Hstorage.
    match goal with |- context [replay env rest ?s1] =>
      destruct (IH Hnd s1) as (s' & Hrun & Hlog & Hval & Hinv & Hrest) end.
    { intros n Hn [loc Hloc]. simpl in Hloc.
      apply (Hfresh n); [simpl; by right|by eexists]. }
    exists s'. split; [done|]. split.
    { rewrite Hlog. simpl. by rewrite <- app_assoc. }
    split; [|split].
    + intros n p Hin Hvp. apply elem_of_cons in Hin as [[= -> ->]|Hin]; [congruence|].
      destruct (Hval n p Hin Hvp) as [-> ->]. simpl. split; [done|].
      apply lookup_delete_ne. intros ->. apply Hname.
      apply list_elem_of_fmap. by exists (n, p).
    + intros n p Hin Hvp. apply elem_of_cons in Hin as [[= -> ->]|Hin].
      * destruct (Hrest name Hname) as [-> ->]. simpl.
        by rewrite lookup_delete_eq.
      * by apply (Hinv n p).
    + intros n Hn. apply not_elem_of_cons in Hn as [Hne Hn].
      destruct (Hrest n Hn) as [-> ->]. simpl. by rewrite lookup_delete_ne.
Qed.

Lemma main_eq persisted :
  main env (startup persisted)
  = replay env (map_to_list persisted) (startup persisted).
Proof. done. Qed.

End Replay.

(** * The claims *)

Section Claims.
Context (env : Env).
Implicit Types (s : Server) (name path : string) (query : gmap string string)
  (msg : Soup.Message).

(** C7, as amended: a PUT on the reserved meta-name that carries a [path]
    parameter, and a DELETE on the reserved meta-name whatever its
    parameters, is answered 405 with the header [Allow: GET], and neither
    the registry nor the cache is touched. *)
Theorem meta_name_is_rejected query msg s path :
  query !! "path" = Some path →
  (∃ response,
     put_index env {| index_name := META_DATABASE_NAME |} query msg s
     = (Normal response, s)
     ∧ Soup.status_code response = 405%N
     ∧ Soup.response_headers response !! "Allow" = Some "GET")
  ∧ (∀ query', ∃ response,
       delete_index env {| index_name := META_DATABASE_NAME |} query' msg s
       = (Normal response, s)
       ∧ Soup.status_code response = 405%N
       ∧ Soup.response_headers response !! "Allow" = Some "GET").
Proof.
  intros Hq. split; [|intros query'].
  - eexists. split; [by eapply put_index_meta|].
    split; [apply res_status|apply res_allow].
  - eexists. split; [apply delete_index_meta|].
    split; [apply res_status|apply res_allow].
Qed.

(** C8: a query request without the [limit] parameter is answered 400 for
    every index name, open, absent or reserved; the server state, and with
    it the log of engine calls, is unchanged, so no query was executed. *)
Theorem query_without_limit_is_400 name query msg s :
  query !! "limit" = None →
  ∃ response s',
    get_index_query env {| index_name := name |} query msg s = (Normal response, s')
    ∧ Soup.status_code response = 400%N
    ∧ DatabaseManager.engine_log (manager s') = DatabaseManager.engine_log (manager s)
    ∧ s' = s.
Proof.
  intros Hq. eexists _, s. split; [by apply get_index_query_no_limit|].
  split; [apply res_status|done].
Qed.

(** C2: on a name that already has an open handle, a PUT with any location
    is answered 200 and leaves the server as it was: the handle, the cache
    and the log of engine calls are the same, so the location was not
    validated and the original handle answers queries as before. *)
Theorem put_on_open_name_is_idempotent name query msg s location' :
  reserved_name_free s → opened s name →
  query !! "path" = Some location' →
  ∃ response s',
    put_index env {| index_name := name |} query msg s = (Normal response, s')
    ∧ Soup.status_code response = 200%N
    ∧ s' = s
    ∧ ∀ q collapse limit,
        DatabaseManager.query_db env name q collapse limit (manager s')
        = DatabaseManager.query_db env name q collapse limit (manager s).
Proof.
  intros [Hfree _] Hop Hq.
  assert (name ≠ META_DATABASE_NAME) as Hne.
  { intros ->. destruct Hop as [loc Hloc]. congruence. }
  eexists _, s. split; [by eapply put_index_open|].
  split; [apply res_status|done].
Qed.

(** C3, as amended: a PUT with an invalid location never changes the open
    handles or the cache, so [has(name)] is what it was; it is answered 403
    when the name is neither open already nor the reserved meta-name. *)
Theorem put_invalid_path_leaves_registry name query msg s path :
  query !! "path" = Some path → valid_path env path = false →
  ∃ response s',
    put_index env {| index_name := name |} query msg s = (Normal response, s')
    ∧ DatabaseManager.databases (manager s') = DatabaseManager.databases (manager s)
    ∧ cache s' = cache s
    ∧ (DatabaseManager.has_db name (manager s')).1
      = (DatabaseManager.has_db name (manager s)).1
    ∧ (name ≠ META_DATABASE_NAME → ¬ opened s name →
       Soup.status_code response = 403%N).
Proof.
  intros Hq Hv.
  destruct (decide (name = META_DATABASE_NAME)) as [->|Hne].
  { eexists _, s. split; [by eapply put_index_meta|]. by do 3 (split; [done|]). }
  destruct (DatabaseManager.databases (manager s) !! name) as [loc|] eqn:Hn.
  { eexists _, s. split; [eapply put_index_open; by try eexists|].
    do 3 (split; [done|]). intros _ Hno. destruct Hno. by eexists. }
  assert (¬ opened s name) as Hno by (intros [? ?]; congruence).
  eexists _, _. split; [by eapply put_index_invalid|].
  do 3 (split; [done|]). intros _ _. apply res_status.
Qed.

(** C9: when the cache write fails after the index was created, the PUT
    is answered 500, yet the index stays open: [has(name)] is true and a
    query on the name reaches the engine handle opened at the location.
    The cache holds what it held. *)
Theorem failed_cache_write_keeps_index_open name query msg s path :
  name ≠ META_DATABASE_NAME → ¬ opened s name →
  query !! "path" = Some path → valid_path env path = true →
  storage_fails env (WriteEntry name path) (DatabaseCache.entries (cache s)) = true →
  ∃ response s',
    put_index env {| index_name := name |} query msg s = (Normal response, s')
    ∧ Soup.status_code response = 500%N
    ∧ DatabaseManager.databases (manager s') !! name = Some path
    ∧ (DatabaseManager.has_db name (manager s')).1 = Normal true
    ∧ (∀ q collapse limit,
         (DatabaseManager.query_db env name q collapse limit (manager s')).1
         = match engine_search env path q collapse limit with
           | Some docs => Normal docs
           | None => Throw ERR_ENGINE_FAILURE
           end)
    ∧ cache s' = cache s.
Proof.
  intros Hne Hno Hq Hv Hf.
  eexists _, _. split; [by eapply put_index_unstored|].
  split; [apply res_status|].
  assert (DatabaseManager.databases
            (manager (with_handle (with_log s (OpenIndex path)) name path)) !! name
          = Some path) as Hopen by apply lookup_insert_eq.
  split; [done|]. split.
  { unfold DatabaseManager.has_db, DatabaseManager.handle_of, bind, ret.
    rewrite Hopen. done. }
  split; [|done].
  intros q collapse limit. erewrite query_db_open by exact Hopen.
  by rewrite search_eq.
Qed.

(** C10: the DELETE handler answers 404 for every exception its [try]
    block raises.  In particular it answers 404 when the cache's storage
    fails after the handle was already released (the name is then no longer
    open and the cache still holds its entry), just as when the name was
    not open at all. *)
Theorem delete_maps_exceptions_to_404 name query msg s :
  name ≠ META_DATABASE_NAME →
  (∀ e s', delete_index_try env name msg s = (Throw e, s') →
     ∃ response,
       delete_index env {| index_name := name |} query msg s = (Normal response, s')
       ∧ Soup.status_code response = 404%N)
  ∧ (opened s name →
     storage_fails env (DropEntry name) (DatabaseCache.entries (cache s)) = true →
     ∃ response s',
       delete_index_try env name msg s = (Throw ERR_STORAGE, s')
       ∧ delete_index env {| index_name := name |} query msg s = (Normal response, s')
       ∧ Soup.status_code response = 404%N
       ∧ ¬ opened s' name
       ∧ cache s' = cache s)
  ∧ (¬ opened s name →
     ∃ response,
       delete_index_try env name msg s = (Throw ERR_DATABASE_NOT_FOUND, s)
       ∧ delete_index env {| index_name := name |} query msg s = (Normal response, s)
       ∧ Soup.status_code response = 404%N).
Proof.
  intros Hne. split; [|split].
  - intros e s' Hth. eexists. split; [by eapply delete_index_caught|apply res_status].
  - intros Hop Hf. eexists _, _.
    split; [by apply delete_index_try_unstored|].
    split; [eapply delete_index_caught; [done|by apply delete_index_try_unstored]|].
    split; [apply res_status|]. split; [|done].
    intros [loc Hloc]. simpl in Hloc. by rewrite lookup_delete_eq in Hloc.
  - intros Hno. eexists.
    split; [by apply delete_index_try_absent|].
    split; [eapply delete_index_caught; [done|by apply delete_index_try_absent]|].
    apply res_status.
Qed.

End Claims.

Section AggregateClaims.
Context (env : Env).
Implicit Types (s : Server) (m : DatabaseManager.t) (query : gmap string string)
  (msg : Soup.Message) (q collapse : option string) (limit : string).

(** C4: when every engine handle answers, [query_all] returns the first
    [N] documents of the merged sequence, where the merged sequence holds
    exactly the documents of the per-index results of [query] (all of them,
    the limit is applied after merging) in descending order of score; so the
    result has at most [N] documents, is sorted by descending score, and
    each of its documents comes from the result of [query] on an open
    index. *)
Theorem query_all_merged_sorted_limited m q collapse limit :
  (∀ name location,
     DatabaseManager.databases m !! name = Some location →
     is_Some (engine_search env location q collapse limit)) →
  ∃ docs m' per_index merged,
    DatabaseManager.query_all env q collapse limit m = (Normal docs, m')
    ∧ Forall2
        (λ h results,
           (DatabaseManager.query_db env h.1 q collapse limit m).1 = Normal results)
        (map_to_list (DatabaseManager.databases m)) per_index
    ∧ merged ≡ₚ concat per_index
    ∧ StronglySorted score_ge merged
    ∧ docs = take (limit_of env limit) merged
    ∧ (List.length docs ≤ limit_of env limit)%nat
    ∧ StronglySorted score_ge docs
    ∧ ∀ d, d ∈ docs →
        ∃ name results,
          is_Some (DatabaseManager.databases m !! name)
          ∧ (DatabaseManager.query_db env name q collapse limit m).1 = Normal results
          ∧ d ∈ results.
Proof.
  intros Hengine.
  destruct (search_each_ok env (map_to_list (DatabaseManager.databases m))
              q collapse limit m) as (per_index & m' & Heach & Hres & Hdb).
  { apply Forall_forall. intros [name location] Hin.
    apply elem_of_map_to_list in Hin. by eapply Hengine. }
  assert (Forall2
            (λ h results,
               (DatabaseManager.query_db env h.1 q collapse limit m).1 = Normal results)
            (map_to_list (DatabaseManager.databases m)) per_index) as Hquery.
  { eapply Forall2_impl_elem; [exact Hres|].
    intros [name location] results Hin Hsome. simpl in *.
    apply elem_of_map_to_list in Hin.
    erewrite query_db_open by exact Hin. rewrite search_eq. simpl. by rewrite Hsome. }
  exists (take (limit_of env limit) (DatabaseManager.merge_results per_index)),
    m', per_index, (DatabaseManager.merge_results per_index).
  split.
  { unfold DatabaseManager.query_all, DatabaseManager.open_handles, bind at 1.
    unfold bind. by rewrite Heach. }
  split; [done|].
  split; [apply merge_results_perm|].
  split; [apply merge_results_sorted|].
  split; [done|].
  split; [rewrite length_take; lia|].
  split; [apply take_sorted, merge_results_sorted|].
  intros d Hd. apply subseteq_take in Hd.
  rewrite merge_results_perm in Hd.
  apply list_elem_of_In, in_concat in Hd as (results & Hresults & Hd).
  apply list_elem_of_In in Hresults, Hd.
  apply list_elem_of_lookup in Hresults as [i Hi].
  destruct (Forall2_lookup_r _ _ _ _ _ Hquery Hi) as ([name location] & Hh & Hq).
  exists name, results. split; [|done].
  apply list_elem_of_lookup_2, elem_of_map_to_list in Hh. by eexists.
Qed.

(** C5: over an empty registry [query_all] returns the empty sequence, not
    an error, and GET /_all/query with a [limit] is answered 200 with the
    empty JSON array as body. *)
Theorem query_all_empty_registry query msg s limit :
  DatabaseManager.databases (manager s) = ∅ →
  query !! "limit" = Some limit →
  DatabaseManager.query_all env (query !! "q") (query !! "collapse") limit (manager s)
  = (Normal [], manager s)
  ∧ ∃ response,
      get_index_query env {| index_name := META_DATABASE_NAME |} query msg s
      = (Normal response, s)
      ∧ Soup.status_code response = 200%N
      ∧ Soup.response_body response = Some (MIME_JSON, "[]").
Proof.
  intros Hempty Hq.
  assert (DatabaseManager.query_all env (query !! "q") (query !! "collapse") limit
            (manager s) = (Normal [], manager s)) as Hall.
  { unfold DatabaseManager.query_all, DatabaseManager.open_handles, bind at 1.
    rewrite Hempty, map_to_list_empty. simpl. unfold bind, ret.
    unfold DatabaseManager.merge_results. simpl. by rewrite take_nil. }
  split; [done|].
  eexists. split.
  { erewrite get_index_query_meta by done. by rewrite server_eta. }
  split; [apply res_status|by rewrite res_body].
Qed.

(** C6: when the engine handle of some open index fails, [query_all]
    aborts with EngineFailure instead of returning the results of the other
    indices, and GET /_all/query is answered 500 without a body. *)
Theorem query_all_engine_failure_is_500 query msg s limit name location :
  DatabaseManager.databases (manager s) !! name = Some location →
  query !! "limit" = Some limit →
  engine_search env location (query !! "q") (query !! "collapse") limit = None →
  ∃ m',
    DatabaseManager.query_all env (query !! "q") (query !! "collapse") limit (manager s)
    = (Throw ERR_ENGINE_FAILURE, m')
    ∧ ∃ response,
        get_index_query env {| index_name := META_DATABASE_NAME |} query msg s
        = (Normal response, {| manager := m'; cache := cache s |})
        ∧ Soup.status_code response = 500%N
        ∧ Soup.response_body response = Soup.response_body msg.
Proof.
  intros Hn Hq Hfail.
  destruct (search_each_fails env (map_to_list (DatabaseManager.databases (manager s)))
              (query !! "q") (query !! "collapse") limit (manager s))
    as (m' & Heach & Hdb).
  { apply Exists_exists. exists (name, location).
    split; [by apply elem_of_map_to_list|done]. }
  assert (DatabaseManager.query_all env (query !! "q") (query !! "collapse") limit
            (manager s) = (Throw ERR_ENGINE_FAILURE, m')) as Hall.
  { unfold DatabaseManager.query_all, DatabaseManager.open_handles, bind at 1.
    unfold bind. by rewrite Heach. }
  exists m'. split; [done|].
  eexists. split; [by erewrite get_index_query_meta|].
  split; [apply res_status|apply res_no_body].
Qed.


End AggregateClaims.

(** ** The reserved name stays out of the registry and of the cache

    No handler and no replay of a cache that lacks the reserved name ever
    opens a handle under it, or stores an entry for it. *)

Section ReservedName.
Context (env : Env).
Implicit Types (s : Server) (query : gmap string string) (msg : Soup.Message).

Lemma search_each_databases handles q collapse limit m :
  DatabaseManager.databases
    (DatabaseManager.search_each env handles q collapse limit m).2
  = DatabaseManager.databases m.
Proof.
  revert m. induction handles as [|[name location] handles IH]; intros m; [done|].
  simpl. unfold bind at 1. rewrite search_eq.
  destruct (engine_search env location q collapse limit) as [docs|]; [|done].
  cbv beta iota. unfold bind at 1.
  match goal with |- context [DatabaseManager.search_each _ _ _ _ _ ?m1] =>
    specialize (IH m1);
    destruct (DatabaseManager.search_each env handles q collapse limit m1)
      as [[others|e] m'] end; exact IH.
Qed.

Lemma query_all_databases q collapse limit m :
  DatabaseManager.databases (DatabaseManager.query_all env q collapse limit m).2
  = DatabaseManager.databases m.
Proof.
  unfold DatabaseManager.query_all, DatabaseManager.open_handles, bind at 1.
  unfold bind.
  pose proof (search_each_databases (map_to_list (DatabaseManager.databases m))
                q collapse limit m) as Hdb.
  by destruct (DatabaseManager.search_each env _ q collapse limit m) as [[others|e] m'].
Qed.

Lemma query_db_databases name q collapse limit m :
  DatabaseManager.databases (DatabaseManager.query_db env name q collapse limit m).2
  = DatabaseManager.databases m.
Proof.
  destruct (DatabaseManager.databases m !! name) as [location|] eqn:Hn.
  - erewrite query_db_open by done. by rewrite search_eq.
  - by rewrite query_db_absent.
Qed.

Lemma get_index_keeps_state params query msg s :
  (get_index params query msg s).2 = s.
Proof.
  destruct params as [name]. unfold get_index. simpl.
  erewrite bind_normal by apply has_db_eq.
  by destruct (bool_decide (opened s name) || bool_decide (name = META_DATABASE_NAME)).
Qed.

Lemma get_index_query_keeps_reserved_name_free params query msg s :
  reserved_name_free s →
  reserved_name_free (get_index_query env params query msg s).2.
Proof.
  intros [Hm Hc]. destruct params as [name].
  destruct (query !! "limit") as [limit|] eqn:Hq.
  2:{ by rewrite get_index_query_no_limit. }
  destruct (decide (name = META_DATABASE_NAME)) as [->|Hne].
  - erewrite get_index_query_meta; [|done|apply surjective_pairing].
    split; simpl; [|done]. by rewrite query_all_databases.
  - erewrite get_index_query_named; [|done|done|apply surjective_pairing].
    split; simpl; [|done]. by rewrite query_db_databases.
Qed.

Lemma put_index_keeps_reserved_name_free params query msg s :
  reserved_name_free s →
  reserved_name_free (put_index env params query msg s).2.
Proof.
  intros [Hm Hc]. destruct params as [name].
  destruct (query !! "path") as [path|] eqn:Hq.
  2:{ by rewrite put_index_no_path. }
  destruct (decide (name = META_DATABASE_NAME)) as [->|Hne].
  { by erewrite put_index_meta. }
  destruct (DatabaseManager.databases (manager s) !! name) as [loc|] eqn:Hn.
  { erewrite put_index_open; [done..|by eexists]. }
  assert (¬ opened s name) as Hno by (intros [? ?]; congruence).
  destruct (valid_path env path) eqn:Hv.
  2:{ by erewrite put_index_invalid. }
  destruct (storage_fails env (WriteEntry name path) (DatabaseCache.entries (cache s)))
    eqn:Hf.
  - erewrite put_index_unstored by done. split; simpl; [|done].
    by rewrite lookup_insert_ne.
  - erewrite put_index_created by done. split; simpl; by rewrite lookup_insert_ne.
Qed.

Lemma delete_index_keeps_reserved_name_free params query msg s :
  reserved_name_free s →
  reserved_name_free (delete_index env params query msg s).2.
Proof.
  intros [Hm Hc]. destruct params as [name].
  destruct (decide (name = META_DATABASE_NAME)) as [->|Hne].
  { by rewrite delete_index_meta. }
  destruct (DatabaseManager.databases (manager s) !! name) as [loc|] eqn:Hn.
  2:{ assert (¬ opened s name) as Hno by (intros [? ?]; congruence).
      erewrite delete_index_caught; [|done|by apply delete_index_try_absent]. done. }
  assert (opened s name) as Hop by (by eexists).
  destruct (storage_fails env (DropEntry name) (DatabaseCache.entries (cache s))) eqn:Hf.
  - erewrite delete_index_caught; [|done|by apply delete_index_try_unstored].
    split; simpl; [|done]. by rewrite lookup_delete_ne.
  - erewrite delete_index_removed by done.
    split; simpl; by rewrite lookup_delete_ne.
Qed.

Lemma main_keeps_reserved_name_free (persisted : gmap string string) :
  persisted !! META_DATABASE_NAME = None →
  (∀ name stored_entries, storage_fails env (DropEntry name) stored_entries = false) →
  reserved_name_free (main env (startup persisted)).2.
Proof.
  intros Hnone Hstorage. rewrite main_eq.
  destruct (replay_spec env (map_to_list persisted) (startup persisted))
    as (s' & Hrun & _ & _ & _ & Hrest).
  { apply NoDup_fst_map_to_list. }
  { done. }
  { intros name _ [loc Hloc]. simpl in Hloc. by rewrite lookup_empty in Hloc. }
  rewrite Hrun. simpl.
  destruct (Hrest META_DATABASE_NAME) as [Hm Hc].
  { intros Hin. apply list_elem_of_fmap in Hin as ([n p] & Heq & Hin). simpl in Heq.
    subst n. apply elem_of_map_to_list in Hin. congruence. }
  split; [by rewrite Hm|by rewrite Hc].
Qed.

End ReservedName.

(** * The scenarios of spec section 8, run on the model *)

Import Scenario.

(** The startup scenario: [idx1] is opened, [idx2] is purged. *)
Example startup_scenario :
  main (world false) (startup persisted)
  = (Normal tt,
     {| manager :=
          {| DatabaseManager.databases := {[ "idx1" := "/valid/path" ]};
             DatabaseManager.engine_log :=
               [OpenIndex "/valid/path"; OpenIndex "/missing/path"] |};
        cache := {| DatabaseCache.entries := {[ "idx1" := "/valid/path" ]} |} |}).
Proof. vm_compute. reflexivity. Qed.

(** With a full disk the purge of [idx2] throws out of the replay. *)
Example startup_scenario_disk_full :
  (main (world true) (startup persisted)).1 = Throw ERR_STORAGE.
Proof. vm_compute. reflexivity. Qed.

(** Two indices, limit 3: the merged list is cut after merging, and of the
    two documents of score 40 the one of the index visited first wins. *)
Example query_all_two_indices :
  (DatabaseManager.query_all (world false) (Some "cats") None "3"
     (manager two_indices)).1
  = Normal [ {| score := 90; payload := "11" |};
             {| score := 75; payload := "21" |};
             {| score := 40; payload := "12" |} ].
Proof. vm_compute. reflexivity. Qed.

Example query_all_two_indices_body :
  Soup.response_body
    match (get_index_query (world false) {| index_name := "_all" |}
             {[ "q" := "cats"; "limit" := "3" ]} Soup.fresh two_indices).1 with
    | Normal response => response
    | Throw _ => Soup.fresh
    end
  = Some ("application/json", "[11,21,12]").
Proof. vm_compute. reflexivity. Qed.

(** A query on a name that is not open is answered 404. *)
Example query_absent_name :
  get_index_query (world false) {| index_name := "idx9" |}
    {[ "limit" := "5" ]} Soup.fresh one_index
  = (Normal (res Soup.fresh 404 None None), one_index).
Proof. vm_compute. reflexivity. Qed.

(** ** Counterexamples *)

(** C7 as stated fails: PUT /_all without a [path] parameter is answered
    400, the check for the missing parameter comes first. *)
Lemma put_meta_without_path_is_400 :
  put_index (world false) {| index_name := META_DATABASE_NAME |} ∅
    Soup.fresh nothing_open
  = (Normal (res Soup.fresh 400 None None), nothing_open)
  ∧ ¬ ∃ response s',
        put_index (world false) {| index_name := META_DATABASE_NAME |} ∅
          Soup.fresh nothing_open
        = (Normal response, s')
        ∧ Soup.status_code response = 405%N
        ∧ Soup.response_headers response !! "Allow" = Some "GET".
Proof.
  assert (put_index (world false) {| index_name := META_DATABASE_NAME |} ∅
            Soup.fresh nothing_open
          = (Normal (res Soup.fresh 400 None None), nothing_open)) as Hrun
    by (vm_compute; reflexivity).
  split; [exact Hrun|].
  intros (response & s' & Heq & Hstatus & _).
  rewrite Hrun in Heq. injection Heq as <- <-. vm_compute in Hstatus. discriminate.
Qed.

(** C3 as stated fails: PUT on the open name [idx1] with an invalid
    location is answered 200, not 403. *)
Lemma put_invalid_path_on_open_name_is_200 :
  valid_path (world false) "/missing/path" = false
  ∧ put_index (world false) {| index_name := "idx1" |}
      {[ "path" := "/missing/path" ]} Soup.fresh one_index
    = (Normal (res Soup.fresh 200 None None), one_index)
  ∧ ¬ ∃ response s',
        put_index (world false) {| index_name := "idx1" |}
          {[ "path" := "/missing/path" ]} Soup.fresh one_index
        = (Normal response, s')
        ∧ Soup.status_code response = 403%N.
Proof.
  assert (put_index (world false) {| index_name := "idx1" |}
            {[ "path" := "/missing/path" ]} Soup.fresh one_index
          = (Normal (res Soup.fresh 200 None None), one_index)) as Hrun
    by (vm_compute; reflexivity).
  split; [vm_compute; reflexivity|]. split; [exact Hrun|].
  intros (response & s' & Heq & Hstatus).
  rewrite Hrun in Heq. injection Heq as <- <-. vm_compute in Hstatus. discriminate.
Qed.


(** ** The claims at concrete inputs *)

Ltac by_evaluation := vm_compute; reflexivity.

Ltac not_open :=
  let H := fresh in intros [? H]; vm_compute in H; discriminate H.

(** PUT /_all?path=/x and DELETE /_all. *)
Lemma meta_name_is_rejected_witness :
  (∃ response,
     put_index (world false) {| index_name := META_DATABASE_NAME |}
       {[ "path" := "/x" ]} Soup.fresh nothing_open
     = (Normal response, nothing_open)
     ∧ Soup.status_code response = 405%N
     ∧ Soup.response_headers response !! "Allow" = Some "GET")
  ∧ (∀ query', ∃ response,
       delete_index (world false) {| index_name := META_DATABASE_NAME |} query'
         Soup.fresh nothing_open
       = (Normal response, nothing_open)
       ∧ Soup.status_code response = 405%N
       ∧ Soup.response_headers response !! "Allow" = Some "GET").
Proof.
  apply (meta_name_is_rejected (world false) {[ "path" := "/x" ]} Soup.fresh
           nothing_open "/x").
  by_evaluation.
Defined.

(** GET /idx1/query without a limit, [idx1] open. *)
Lemma query_without_limit_is_400_witness :
  ∃ response s',
    get_index_query (world false) {| index_name := "idx1" |} {[ "q" := "cats" ]}
      Soup.fresh one_index
    = (Normal response, s')
    ∧ Soup.status_code response = 400%N
    ∧ DatabaseManager.engine_log (manager s')
      = DatabaseManager.engine_log (manager one_index)
    ∧ s' = one_index.
Proof.
  apply (query_without_limit_is_400 (world false) "idx1" {[ "q" := "cats" ]}
           Soup.fresh one_index).
  by_evaluation.
Defined.

(** PUT /idx1?path=/data/B while [idx1] is open at /valid/path. *)
Lemma put_on_open_name_is_idempotent_witness :
  ∃ response s',
    put_index (world false) {| index_name := "idx1" |} {[ "path" := "/data/B" ]}
      Soup.fresh one_index
    = (Normal response, s')
    ∧ Soup.status_code response = 200%N
    ∧ s' = one_index
    ∧ ∀ q collapse limit,
        DatabaseManager.query_db (world false) "idx1" q collapse limit (manager s')
        = DatabaseManager.query_db (world false) "idx1" q collapse limit
            (manager one_index).
Proof.
  apply (put_on_open_name_is_idempotent (world false) "idx1" {[ "path" := "/data/B" ]}
           Soup.fresh one_index "/data/B").
  - split; by_evaluation.
  - exists "/valid/path". by_evaluation.
  - by_evaluation.
Defined.

(** PUT /idx2?path=/missing/path while only [idx1] is open. *)
Lemma put_invalid_path_leaves_registry_witness :
  ∃ response s',
    put_index (world false) {| index_name := "idx2" |}
      {[ "path" := "/missing/path" ]} Soup.fresh one_index
    = (Normal response, s')
    ∧ DatabaseManager.databases (manager s')
      = DatabaseManager.databases (manager one_index)
    ∧ cache s' = cache one_index
    ∧ (DatabaseManager.has_db "idx2" (manager s')).1
      = (DatabaseManager.has_db "idx2" (manager one_index)).1
    ∧ Soup.status_code response = 403%N.
Proof.
  destruct (put_invalid_path_leaves_registry (world false) "idx2"
              {[ "path" := "/missing/path" ]} Soup.fresh one_index "/missing/path")
    as (response & s' & Hrun & Hdb & Hcache & Hhas & Hstatus).
  - by_evaluation.
  - by_evaluation.
  - exists response, s'. do 4 (split; [assumption|]).
    apply Hstatus; [discriminate|not_open].
Defined.

(** PUT /A?path=/data/A on a full disk. *)
Lemma failed_cache_write_keeps_index_open_witness :
  ∃ response s',
    put_index (world true) {| index_name := "A" |} {[ "path" := "/data/A" ]}
      Soup.fresh nothing_open
    = (Normal response, s')
    ∧ Soup.status_code response = 500%N
    ∧ DatabaseManager.databases (manager s') !! "A" = Some "/data/A"
    ∧ (DatabaseManager.has_db "A" (manager s')).1 = Normal true
    ∧ (∀ q collapse limit,
         (DatabaseManager.query_db (world true) "A" q collapse limit (manager s')).1
         = match engine_search (world true) "/data/A" q collapse limit with
           | Some docs => Normal docs
           | None => Throw ERR_ENGINE_FAILURE
           end)
    ∧ cache s' = cache nothing_open.
Proof.
  apply (failed_cache_write_keeps_index_open (world true) "A" {[ "path" := "/data/A" ]}
           Soup.fresh nothing_open "/data/A").
  - discriminate.
  - not_open.
  - by_evaluation.
  - by_evaluation.
  - by_evaluation.
Defined.

(** DELETE /idx1 on a full disk, and DELETE of a name that is not open. *)
Lemma delete_maps_exceptions_to_404_witness :
  (∃ response s',
     delete_index_try (world true) "idx1" Soup.fresh one_index = (Throw ERR_STORAGE, s')
     ∧ delete_index (world true) {| index_name := "idx1" |} ∅ Soup.fresh one_index
       = (Normal response, s')
     ∧ Soup.status_code response = 404%N
     ∧ ¬ opened s' "idx1"
     ∧ cache s' = cache one_index).
Proof.
  apply (delete_maps_exceptions_to_404 (world true) "idx1" ∅ Soup.fresh one_index).
  - discriminate.
  - exists "/valid/path". by_evaluation.
  - by_evaluation.
Defined.

(** GET /_all/query?limit=3 over the indices [A] and [B]. *)
Lemma query_all_merged_sorted_limited_witness :
  ∃ docs m' per_index merged,
    DatabaseManager.query_all (world false) (Some "cats") None "3" (manager two_indices)
    = (Normal docs, m')
    ∧ Forall2
        (λ h results,
           (DatabaseManager.query_db (world false) h.1 (Some "cats") None "3"
              (manager two_indices)).1 = Normal results)
        (map_to_list (DatabaseManager.databases (manager two_indices))) per_index
    ∧ merged ≡ₚ concat per_index
    ∧ StronglySorted score_ge merged
    ∧ docs = take (limit_of (world false) "3") merged
    ∧ (List.length docs ≤ limit_of (world false) "3")%nat
    ∧ StronglySorted score_ge docs
    ∧ ∀ d, d ∈ docs →
        ∃ name results,
          is_Some (DatabaseManager.databases (manager two_indices) !! name)
          ∧ (DatabaseManager.query_db (world false) name (Some "cats") None "3"
               (manager two_indices)).1 = Normal results
          ∧ d ∈ results.
Proof.
  apply (query_all_merged_sorted_limited (world false) (manager two_indices)
           (Some "cats") None "3").
  intros name location Hopen.
  assert (map_to_list (DatabaseManager.databases (manager two_indices))
          = [("A", "/data/A"); ("B", "/data/B")]) as Hhandles by by_evaluation.
  apply elem_of_map_to_list in Hopen. rewrite Hhandles in Hopen.
  apply elem_of_cons in Hopen as [[= -> ->]|Hopen]; [by eexists|].
  apply elem_of_cons in Hopen as [[= -> ->]|Hopen]; [by eexists|].
  by apply elem_of_nil in Hopen.
Defined.

(** GET /_all/query?limit=5 with no open indices. *)
Lemma query_all_empty_registry_witness :
  DatabaseManager.query_all (world false) None None "5" (manager nothing_open)
  = (Normal [], manager nothing_open)
  ∧ ∃ response,
      get_index_query (world false) {| index_name := META_DATABASE_NAME |}
        {[ "limit" := "5" ]} Soup.fresh nothing_open
      = (Normal response, nothing_open)
      ∧ Soup.status_code response = 200%N
      ∧ Soup.response_body response = Some (MIME_JSON, "[]").
Proof.
  apply (query_all_empty_registry (world false) {[ "limit" := "5" ]} Soup.fresh
           nothing_open "5").
  - by_evaluation.
  - by_evaluation.
Defined.

(** GET /_all/query?limit=5 while the engine handle of [X] fails. *)
Lemma query_all_engine_failure_is_500_witness :
  ∃ m',
    DatabaseManager.query_all (world false)
      (({[ "limit" := "5" ]} : gmap string string) !! "q")
      (({[ "limit" := "5" ]} : gmap string string) !! "collapse") "5"
      (manager with_broken)
    = (Throw ERR_ENGINE_FAILURE, m')
    ∧ ∃ response,
        get_index_query (world false) {| index_name := META_DATABASE_NAME |}
          {[ "limit" := "5" ]} Soup.fresh with_broken
        = (Normal response, {| manager := m'; cache := cache with_broken |})
        ∧ Soup.status_code response = 500%N
        ∧ Soup.response_body response = Soup.response_body Soup.fresh.
Proof.
  apply (query_all_engine_failure_is_500 (world false) {[ "limit" := "5" ]} Soup.fresh
           with_broken "5" "X" "/data/broken").
  - by_evaluation.
  - by_evaluation.
  - by_evaluation.
Defined.


(** * Beyond the claims: the routes whatever the collaborators do *)

Section RoutesFacts.
Context {S : Type} (M : Routes.Manager S) (C : Routes.Cache S).
Implicit Types (s : S) (name path : string) (query : gmap string string)
  (msg : Soup.Message).
Local Arguments res : simpl never.

Lemma answered_res msg code headers body statuses :
  code ∈ statuses → answered (res msg code headers body) statuses.
Proof. unfold answered. by rewrite res_status. Qed.

(** X1: the startup replay swallows every exception of [create_db]: as long as
    [cache.remove_entry] does not throw, the replay completes, whatever the
    entries and whatever the manager throws. *)
Theorem replay_survives_create_failures (stored : list (string * string)) s :
  (∀ name s0, ∃ s1, Routes.remove_entry C name s0 = (Normal tt, s1)) →
  ∃ s', Routes.replay M C stored s = (Normal tt, s').
Proof.
  intros Hremove. revert s.
  induction stored as [|[name path] rest IH]; intros s; simpl.
  { by exists s. }
  unfold bind at 1, try_catch.
  destruct (Routes.create_db M name path s) as [[[]|e] s1].
  - apply IH.
  - destruct (decide (e = ERR_INVALID_PATH)).
    + destruct (Hremove name s1) as [s2 ->]. apply IH.
    + unfold ret. apply IH.
Qed.

(** When [create_db] fails with anything but ERR_INVALID_PATH, the replay
    goes on with the next entry from the state the failure left: the cache
    is not asked to remove the entry, and nothing is reported. *)
Lemma replay_skips_entry_on_other_failure name path
    (rest : list (string * string)) s e s1 :
  Routes.create_db M name path s = (Throw e, s1) →
  e ≠ ERR_INVALID_PATH →
  Routes.replay M C ((name, path) :: rest) s = Routes.replay M C rest s1.
Proof.
  intros Hcreate Hother. simpl. unfold bind at 1, try_catch. rewrite Hcreate.
  by rewrite decide_False.
Qed.

(** X2: the PUT handler answers 200, 400, 403, 405 or 500; the only exception
    it lets escape is one thrown by [manager.has_db], which it calls outside
    of its [try] block. *)
Theorem put_index_lets_only_has_db_escape name query msg s :
  match Routes.put_index M C {| index_name := name |} query msg s with
  | (Normal response, _) => answered response [200; 400; 403; 405; 500]%N
  | (Throw e, s') => Routes.has_db M name s = (Throw e, s')
  end.
Proof.
  unfold Routes.put_index. simpl.
  destruct (query !! "path") as [path|]; [|apply answered_res; set_solver].
  destruct (decide (name = META_DATABASE_NAME)); [apply answered_res; set_solver|].
  unfold bind at 1.
  destruct (Routes.has_db M name s) as [[[]|e] s1]; [| |done].
  { simpl. apply answered_res. set_solver. }
  simpl. unfold bind at 1, try_catch, bind at 1.
  destruct (Routes.create_db M name path s1) as [[[]|e] s2].
  - unfold bind at 1.
    destruct (Routes.set_entry C name path s2) as [[[]|e] s3].
    + apply answered_res. set_solver.
    + destruct (decide (e = ERR_INVALID_PATH)); apply answered_res; set_solver.
  - destruct (decide (e = ERR_INVALID_PATH)); apply answered_res; set_solver.
Qed.

(** When [create_db] throws, the PUT handler does not write to the cache:
    it answers from the state the failure left, 403 for ERR_INVALID_PATH and
    500 for anything else. *)
Lemma put_index_failed_create_skips_cache name query msg s path s1 e s2 :
  query !! "path" = Some path → name ≠ META_DATABASE_NAME →
  Routes.has_db M name s = (Normal false, s1) →
  Routes.create_db M name path s1 = (Throw e, s2) →
  Routes.put_index M C {| index_name := name |} query msg s
  = (Normal (res msg (if decide (e = ERR_INVALID_PATH)
                      then Soup.Status.FORBIDDEN
                      else Soup.Status.INTERNAL_SERVER_ERROR) None None), s2).
Proof.
  intros Hq Hne Hhas Hcreate. unfold Routes.put_index. simpl.
  rewrite Hq, decide_False by done.
  unfold bind at 1. rewrite Hhas. simpl.
  unfold bind at 1, try_catch, bind at 1. rewrite Hcreate.
  by destruct (decide (e = ERR_INVALID_PATH)).
Qed.

(** X3: the DELETE handler never throws and answers 200, 404 or 405; it
    answers 200 only when both [manager.remove_db] and, after it,
    [cache.remove_entry] completed. *)
Theorem delete_index_never_throws name query msg s :
  ∃ response s',
    Routes.delete_index M C {| index_name := name |} query msg s = (Normal response, s')
    ∧ answered response [200; 404; 405]%N
    ∧ (Soup.status_code response = 200%N →
       ∃ s1, Routes.remove_db M name s = (Normal tt, s1)
             ∧ Routes.remove_entry C name s1 = (Normal tt, s')).
Proof.
  unfold Routes.delete_index. simpl.
  destruct (decide (name = META_DATABASE_NAME)).
  { eexists _, s. split; [done|]. split; [apply answered_res; set_solver|].
    rewrite res_status. done. }
  unfold try_catch, Routes.delete_index_try, bind at 1.
  destruct (Routes.remove_db M name s) as [[[]|e] s1] eqn:Hdb.
  - unfold bind at 1.
    destruct (Routes.remove_entry C name s1) as [[[]|e] s2] eqn:Hentry.
    + eexists _, s2. split; [done|]. split; [apply answered_res; set_solver|].
      intros _. by exists s1.
    + eexists _, s2. split; [done|]. split; [apply answered_res; set_solver|].
      rewrite res_status. done.
  - eexists _, s1. split; [done|]. split; [apply answered_res; set_solver|].
    rewrite res_status. done.
Qed.

(** X4: the query handler never throws and answers 200, 400, 404 or 500,
    whatever the manager does; every answer but 200 leaves the body of the
    message alone; a 200 carries the JSON text of the array the manager
    returned, and leaves the body alone when the manager returned
    [undefined]. *)
Theorem get_index_query_never_throws name query msg s :
  ∃ response s',
    Routes.get_index_query M {| index_name := name |} query msg s
    = (Normal response, s')
    ∧ answered response [200; 400; 404; 500]%N
    ∧ (Soup.status_code response ≠ 200%N →
       Soup.response_body response = Soup.response_body msg)
    ∧ (Soup.status_code response = 200%N →
       ∃ limit returned,
         query !! "limit" = Some limit
         ∧ Routes.run_query M name (query !! "q") (query !! "collapse") limit s
           = (Normal returned, s')
         ∧ Soup.response_body response
           = match returned with
             | Some results => Some (MIME_JSON, JSON_stringify results)
             | None => Soup.response_body msg
             end).
Proof.
  unfold Routes.get_index_query. simpl.
  destruct (query !! "limit") as [limit|].
  2:{ eexists _, s. split; [done|]. split; [apply answered_res; set_solver|].
      rewrite res_status, res_no_body. by split. }
  unfold try_catch, bind at 1.
  destruct (Routes.run_query M name (query !! "q") (query !! "collapse") limit s)
    as [[returned|e] s1] eqn:Hrun.
  - eexists _, s1. split; [done|]. split; [apply answered_res; set_solver|].
    rewrite res_status. split; [done|]. intros _. exists limit, returned.
    split; [done|]. split; [done|].
    destruct returned as [results|]; [by rewrite res_body|by rewrite res_no_body].
  - destruct (decide (e = ERR_DATABASE_NOT_FOUND)).
    + eexists _, s1. split; [done|]. split; [apply answered_res; set_solver|].
      rewrite res_status, res_no_body. by split.
    + eexists _, s1. split; [done|]. split; [apply answered_res; set_solver|].
      rewrite res_status, res_no_body. by split.
Qed.

(** X5: the handlers of GET /:index_name, PUT and DELETE never set a body,
    whatever they answer. *)
Theorem only_queries_carry_a_body name query msg s :
  (∀ response s',
     Routes.get_index M {| index_name := name |} query msg s = (Normal response, s') →
     Soup.response_body response = Soup.response_body msg)
  ∧ (∀ response s',
       Routes.put_index M C {| index_name := name |} query msg s = (Normal response, s') →
       Soup.response_body response = Soup.response_body msg)
  ∧ (∀ response s',
       Routes.delete_index M C {| index_name := name |} query msg s
       = (Normal response, s') →
       Soup.response_body response = Soup.response_body msg).
Proof.
  split; [|split]; intros response s'.
  - unfold Routes.get_index. simpl. unfold bind.
    destruct (Routes.has_db M name s) as [[has|e] s1]; [|done].
    destruct (has || bool_decide (name = META_DATABASE_NAME));
      intros [= <- <-]; apply res_no_body.
  - unfold Routes.put_index. simpl.
    destruct (query !! "path") as [path|]; [|intros [= <- <-]; apply res_no_body].
    destruct (decide (name = META_DATABASE_NAME)); [intros [= <- <-]; apply res_no_body|].
    unfold bind at 1.
    destruct (Routes.has_db M name s) as [[[]|e] s1]; [| |done].
    { simpl. intros [= <- <-]. apply res_no_body. }
    simpl. unfold bind at 1, try_catch, bind at 1.
    destruct (Routes.create_db M name path s1) as [[[]|e] s2].
    + unfold bind at 1.
      destruct (Routes.set_entry C name path s2) as [[[]|e] s3].
      * intros [= <- <-]. apply res_no_body.
      * destruct (decide (e = ERR_INVALID_PATH)); intros [= <- <-]; apply res_no_body.
    + destruct (decide (e = ERR_INVALID_PATH)); intros [= <- <-]; apply res_no_body.
  - unfold Routes.delete_index. simpl.
    destruct (decide (name = META_DATABASE_NAME)).
    { intros [= <- <-]. apply res_no_body. }
    unfold try_catch, Routes.delete_index_try, bind at 1.
    destruct (Routes.remove_db M name s) as [[[]|e] s2].
    + unfold bind at 1.
      destruct (Routes.remove_entry C name s2) as [[[]|e] s3];
        intros [= <- <-]; apply res_no_body.
    + intros [= <- <-]. apply res_no_body.
Qed.

End RoutesFacts.

(** * Beyond the claims: the server of the model *)

Section ModelFacts.
Context (env : Env).
Implicit Types (s : Server) (name path : string) (query : gmap string string)
  (msg : Soup.Message).

(** The handlers of the model are the routes, run on the modelled manager
    and cache. *)
Lemma routes_of_model params query msg s :
  get_index params query msg s
  = Routes.get_index (modelled_manager env) params query msg s
  ∧ put_index env params query msg s
    = Routes.put_index (modelled_manager env) (modelled_cache env) params query msg s
  ∧ delete_index env params query msg s
    = Routes.delete_index (modelled_manager env) (modelled_cache env) params query msg s
  ∧ get_index_query env params query msg s
    = Routes.get_index_query (modelled_manager env) params query msg s.
Proof.
  do 3 (split; [done|]). destruct params as [name].
  unfold get_index_query, Routes.get_index_query, Routes.run_query. simpl.
  destruct (query !! "limit") as [limit|]; [|done].
  unfold try_catch, bind.
  destruct (decide (name = META_DATABASE_NAME)).
  - by destruct (on_manager (DatabaseManager.query_all env _ _ limit) s) as [[?|?] ?].
  - by destruct (on_manager (DatabaseManager.query_db env name _ _ limit) s) as [[?|?] ?].
Qed.

Lemma replay_of_model stored :
  replay env stored = Routes.replay (modelled_manager env) (modelled_cache env) stored.
Proof. induction stored as [|[name path] rest IH]; [done|]. simpl. by rewrite IH. Qed.

Lemma opened_or_not s name :
  opened s name ∨ (¬ opened s name
                   ∧ DatabaseManager.databases (manager s) !! name = None).
Proof.
  unfold opened. destruct (DatabaseManager.databases (manager s) !! name) eqn:Hn.
  - left. by eexists.
  - right. split; [by intros [? ?]|done].
Qed.

Ltac wrong_status Hrun Hstatus :=
  injection Hrun as <- <-; rewrite ?res_status in Hstatus; simpl in Hstatus;
  discriminate Hstatus.

Lemma get_index_eq name query msg s :
  get_index {| index_name := name |} query msg s
  = (Normal (if bool_decide (opened s name) || bool_decide (name = META_DATABASE_NAME)
             then res msg Soup.Status.OK None None
             else res msg Soup.Status.NOT_FOUND None None), s).
Proof.
  unfold get_index. simpl. erewrite bind_normal by apply has_db_eq.
  by destruct (bool_decide (opened s name) || bool_decide (name = META_DATABASE_NAME)).
Qed.

(** X6: GET /:index_name leaves the server as it is and answers 200 exactly
    when the name is open or is the reserved meta-name, which is reported
    as existing even when nothing is open; otherwise it answers 404. *)
Theorem get_index_reports_open name query msg s :
  ∃ response,
    get_index {| index_name := name |} query msg s = (Normal response, s)
    ∧ (Soup.status_code response = 200%N ↔ opened s name ∨ name = META_DATABASE_NAME)
    ∧ (Soup.status_code response = 404%N ↔ ¬ opened s name ∧ name ≠ META_DATABASE_NAME).
Proof.
  eexists. split; [apply get_index_eq|].
  destruct (bool_decide (opened s name) || bool_decide (name = META_DATABASE_NAME))
    eqn:Hb; rewrite res_status.
  - apply orb_true_iff in Hb.
    rewrite !bool_decide_eq_true in Hb.
    split; [done|]. split; [done|]. intros [Hno Hne]. by destruct Hb.
  - apply orb_false_iff in Hb. rewrite !bool_decide_eq_false in Hb.
    split; [|done]. split; [done|]. intros [?|?]; by destruct Hb.
Qed.

(** ** What a 200 of PUT and of DELETE means *)

(** X7: a PUT that is answered 200 leaves the name open, so a GET on the name
    is answered 200 afterwards; and when the name was not open before, the
    handle and the cache entry both hold the location of the request. *)
Theorem put_ok_means_open name query msg s response s' :
  put_index env {| index_name := name |} query msg s = (Normal response, s') →
  Soup.status_code response = 200%N →
  opened s' name
  ∧ (∀ query' msg', ∃ response',
       get_index {| index_name := name |} query' msg' s' = (Normal response', s')
       ∧ Soup.status_code response' = 200%N)
  ∧ (¬ opened s name →
     ∃ path, query !! "path" = Some path
             ∧ DatabaseManager.databases (manager s') !! name = Some path
             ∧ DatabaseCache.entries (cache s') !! name = Some path).
Proof.
  intros Hrun Hstatus.
  assert (opened s' name
          ∧ (¬ opened s name →
             ∃ path, query !! "path" = Some path
                     ∧ DatabaseManager.databases (manager s') !! name = Some path
                     ∧ DatabaseCache.entries (cache s') !! name = Some path))
    as [Hopen Hnew].
  { destruct (query !! "path") as [path|] eqn:Hq.
    2:{ rewrite put_index_no_path in Hrun by done. by wrong_status Hrun Hstatus. }
    destruct (decide (name = META_DATABASE_NAME)) as [->|Hne].
    { erewrite put_index_meta in Hrun by done. by wrong_status Hrun Hstatus. }
    destruct (opened_or_not s name) as [Hop|[Hno _]].
    { erewrite put_index_open in Hrun by done. injection Hrun as <- <-. by split. }
    destruct (valid_path env path) eqn:Hv.
    2:{ erewrite put_index_invalid in Hrun by done. by wrong_status Hrun Hstatus. }
    destruct (storage_fails env (WriteEntry name path) (DatabaseCache.entries (cache s)))
      eqn:Hf.
    { erewrite put_index_unstored in Hrun by done. by wrong_status Hrun Hstatus. }
    erewrite put_index_created in Hrun by done. injection Hrun as <- <-.
    split.
    - exists path. simpl. by rewrite lookup_insert_eq.
    - intros _. exists path. simpl. by rewrite !lookup_insert_eq. }
  split; [done|]. split; [|done].
  intros query' msg'. eexists. split; [apply get_index_eq|].
  rewrite bool_decide_eq_true_2 by done. rewrite orb_true_l. apply res_status.
Qed.

(** X8: a DELETE that is answered 200 found the name open and leaves it
    closed and out of the cache; the handles and cache entries of all other
    names are what they were; a second DELETE on the name is answered 404. *)
Theorem delete_ok_means_closed name query msg s response s' :
  delete_index env {| index_name := name |} query msg s = (Normal response, s') →
  Soup.status_code response = 200%N →
  opened s name
  ∧ ¬ opened s' name
  ∧ DatabaseCache.entries (cache s') !! name = None
  ∧ (∀ other, other ≠ name →
       DatabaseManager.databases (manager s') !! other
       = DatabaseManager.databases (manager s) !! other
       ∧ DatabaseCache.entries (cache s') !! other
         = DatabaseCache.entries (cache s) !! other)
  ∧ (∀ query' msg', ∃ response',
       delete_index env {| index_name := name |} query' msg' s' = (Normal response', s')
       ∧ Soup.status_code response' = 404%N).
Proof.
  intros Hrun Hstatus.
  destruct (decide (name = META_DATABASE_NAME)) as [->|Hne].
  { rewrite delete_index_meta in Hrun. by wrong_status Hrun Hstatus. }
  destruct (opened_or_not s name) as [Hop|[Hno _]].
  2:{ erewrite delete_index_caught in Hrun;
        [|done|by apply delete_index_try_absent].
      by wrong_status Hrun Hstatus. }
  destruct (storage_fails env (DropEntry name) (DatabaseCache.entries (cache s))) eqn:Hf.
  { erewrite delete_index_caught in Hrun;
      [|done|by apply delete_index_try_unstored].
    by wrong_status Hrun Hstatus. }
  erewrite delete_index_removed in Hrun by done. injection Hrun as <- <-.
  assert (¬ opened
            {| manager := manager (without_handle s name);
               cache := {| DatabaseCache.entries :=
                             delete name (DatabaseCache.entries (cache s)) |} |} name)
    as Hclosed.
  { intros [loc Hloc]. simpl in Hloc. by rewrite lookup_delete_eq in Hloc. }
  split; [done|]. split; [done|].
  split; [simpl; by rewrite lookup_delete_eq|].
  split.
  - intros other Hother. simpl. by rewrite !lookup_delete_ne.
  - intros query' msg'. eexists.
    split; [eapply delete_index_caught; [done|by apply delete_index_try_absent]|].
    apply res_status.
Qed.

(** X9: with a storage layer that does not fail, a PUT of a new name with a
    valid location followed by a DELETE of the name brings the open handles
    and the cache back to what they were; both requests are answered 200. *)
Theorem put_then_delete_restores name path query query' msg msg' s :
  healthy_storage env →
  name ≠ META_DATABASE_NAME → ¬ opened s name →
  DatabaseCache.entries (cache s) !! name = None →
  query !! "path" = Some path → valid_path env path = true →
  ∃ r1 s1 r2 s2,
    put_index env {| index_name := name |} query msg s = (Normal r1, s1)
    ∧ Soup.status_code r1 = 200%N
    ∧ delete_index env {| index_name := name |} query' msg' s1 = (Normal r2, s2)
    ∧ Soup.status_code r2 = 200%N
    ∧ DatabaseManager.databases (manager s2) = DatabaseManager.databases (manager s)
    ∧ cache s2 = cache s.
Proof.
  intros Hhealthy Hne Hno Hentry Hq Hv.
  assert (DatabaseManager.databases (manager s) !! name = None) as Hnone.
  { destruct (opened_or_not s name) as [?|[_ ?]]; done. }
  eexists _, _, _, _.
  split; [by apply put_index_created|].
  split; [apply res_status|].
  split.
  { apply delete_index_removed; [done| |apply Hhealthy].
    exists path. simpl. by rewrite lookup_insert_eq. }
  split; [apply res_status|].
  simpl. rewrite !delete_insert_id by done. split; [done|].
  by destruct (cache s).
Qed.

(** X10: PUT and DELETE on one name never touch the handle or the cache entry
    of another name, whatever they answer. *)
Theorem put_and_delete_touch_one_name name other query msg s :
  other ≠ name →
  (DatabaseManager.databases (manager (put_index env {| index_name := name |}
                                         query msg s).2) !! other
   = DatabaseManager.databases (manager s) !! other
   ∧ DatabaseCache.entries (cache (put_index env {| index_name := name |}
                                     query msg s).2) !! other
     = DatabaseCache.entries (cache s) !! other)
  ∧ (DatabaseManager.databases (manager (delete_index env {| index_name := name |}
                                           query msg s).2) !! other
     = DatabaseManager.databases (manager s) !! other
     ∧ DatabaseCache.entries (cache (delete_index env {| index_name := name |}
                                       query msg s).2) !! other
       = DatabaseCache.entries (cache s) !! other).
Proof.
  intros Hother. split.
  - destruct (query !! "path") as [path|] eqn:Hq.
    2:{ by rewrite put_index_no_path. }
    destruct (decide (name = META_DATABASE_NAME)) as [->|Hne].
    { by erewrite put_index_meta. }
    destruct (opened_or_not s name) as [Hop|[Hno _]].
    { by erewrite put_index_open. }
    destruct (valid_path env path) eqn:Hv.
    2:{ by erewrite put_index_invalid. }
    destruct (storage_fails env (WriteEntry name path) (DatabaseCache.entries (cache s)))
      eqn:Hf.
    + erewrite put_index_unstored by done. simpl. by rewrite lookup_insert_ne.
    + erewrite put_index_created by done. simpl. by rewrite !lookup_insert_ne.
  - destruct (decide (name = META_DATABASE_NAME)) as [->|Hne].
    { by rewrite delete_index_meta. }
    destruct (opened_or_not s name) as [Hop|[Hno _]].
    2:{ by erewrite delete_index_caught; [|done|by apply delete_index_try_absent]. }
    destruct (storage_fails env (DropEntry name) (DatabaseCache.entries (cache s))) eqn:Hf.
    + erewrite delete_index_caught; [|done|by apply delete_index_try_unstored].
      simpl. by rewrite lookup_delete_ne.
    + erewrite delete_index_removed by done. simpl. by rewrite !lookup_delete_ne.
Qed.

End ModelFacts.

(** ** The cache follows the registry *)

Section Synchrony.
Context (env : Env).
Implicit Types (s : Server) (name path : string) (query : gmap string string)
  (msg : Soup.Message).

Lemma get_index_query_state params query msg s :
  DatabaseManager.databases (manager (get_index_query env params query msg s).2)
  = DatabaseManager.databases (manager s)
  ∧ cache (get_index_query env params query msg s).2 = cache s.
Proof.
  destruct params as [name].
  destruct (query !! "limit") as [limit|] eqn:Hq.
  2:{ by rewrite get_index_query_no_limit. }
  destruct (decide (name = META_DATABASE_NAME)) as [->|Hne].
  - erewrite get_index_query_meta; [|done|apply surjective_pairing].
    simpl. by rewrite query_all_databases.
  - erewrite get_index_query_named; [|done|done|apply surjective_pairing].
    simpl. by rewrite query_db_databases.
Qed.

(** X11: with a storage layer that does not fail, every handler keeps the cache
    equal to the registry: each open handle has its entry and each entry
    its open handle, with the same location. *)
Theorem handlers_keep_in_sync params query msg s :
  healthy_storage env → in_sync s →
  in_sync (get_index params query msg s).2
  ∧ in_sync (put_index env params query msg s).2
  ∧ in_sync (delete_index env params query msg s).2
  ∧ in_sync (get_index_query env params query msg s).2.
Proof.
  intros Hhealthy Hsync. destruct params as [name]. unfold in_sync in *.
  split; [by rewrite get_index_eq|]. split; [|split].
  - destruct (query !! "path") as [path|] eqn:Hq.
    2:{ by rewrite put_index_no_path. }
    destruct (decide (name = META_DATABASE_NAME)) as [->|Hne].
    { by erewrite put_index_meta. }
    destruct (opened_or_not s name) as [Hop|[Hno _]].
    { by erewrite put_index_open. }
    destruct (valid_path env path) eqn:Hv.
    2:{ by erewrite put_index_invalid. }
    erewrite put_index_created; [|done..|apply Hhealthy].
    simpl. by rewrite Hsync.
  - destruct (decide (name = META_DATABASE_NAME)) as [->|Hne].
    { by rewrite delete_index_meta. }
    destruct (opened_or_not s name) as [Hop|[Hno _]].
    2:{ by erewrite delete_index_caught; [|done|by apply delete_index_try_absent]. }
    erewrite delete_index_removed; [|done..|apply Hhealthy].
    simpl. by rewrite Hsync.
  - destruct (get_index_query_state {| index_name := name |} query msg s) as [-> ->].
    done.
Qed.

Lemma main_spec (persisted : gmap string string) :
  healthy_storage env →
  ∃ s',
    main env (startup persisted) = (Normal tt, s')
    ∧ DatabaseManager.databases (manager s') = openable env persisted
    ∧ DatabaseCache.entries (cache s') = openable env persisted.
Proof.
  intros Hhealthy. rewrite main_eq.
  destruct (replay_spec env (map_to_list persisted) (startup persisted))
    as (s' & Hrun & _ & Hval & Hinv & Hrest).
  { apply NoDup_fst_map_to_list. }
  { intros name stored. apply Hhealthy. }
  { intros name _ [loc Hloc]. simpl in Hloc. by rewrite lookup_empty in Hloc. }
  exists s'. split; [done|].
  assert (∀ name,
            DatabaseManager.databases (manager s') !! name = openable env persisted !! name
            ∧ DatabaseCache.entries (cache s') !! name = openable env persisted !! name)
    as Hpoint.
  { intros name. unfold openable.
    destruct (persisted !! name) as [location|] eqn:Hp.
    - assert ((name, location) ∈ map_to_list persisted) as Hin
        by by apply elem_of_map_to_list.
      destruct (valid_path env location) eqn:Hv.
      + destruct (Hval name location Hin Hv) as [-> ->]. simpl.
        rewrite Hp. split; symmetry; by apply map_lookup_filter_Some_2.
      + destruct (Hinv name location Hin Hv) as [-> ->].
        split; symmetry; apply map_lookup_filter_None_2; right;
          intros x Hx; simpl; congruence.
    - destruct (Hrest name) as [-> ->].
      { intros Hin. apply list_elem_of_fmap in Hin as ([n p] & Heq & Hin).
        simpl in Heq. subst n. apply elem_of_map_to_list in Hin. congruence. }
      simpl. rewrite lookup_empty, Hp.
      split; symmetry; apply map_lookup_filter_None_2; by left. }
  split; apply map_eq; intros name; by destruct (Hpoint name).
Qed.

(** X12: with a storage layer that does not fail, [main] opens exactly the
    cached entries whose location is valid, nothing else, and leaves the
    cache equal to the registry. *)
Theorem main_opens_the_openable_entries (persisted : gmap string string) :
  healthy_storage env →
  ∃ s',
    main env (startup persisted) = (Normal tt, s')
    ∧ DatabaseManager.databases (manager s') = openable env persisted
    ∧ in_sync s'.
Proof.
  intros Hhealthy. destruct (main_spec persisted Hhealthy) as (s' & Hrun & Hdb & Hc).
  exists s'. split; [done|]. split; [done|]. unfold in_sync. congruence.
Qed.

(** When every location is valid the replay never asks the cache to
    remove anything: it completes whatever the storage layer would do, opens
    every entry and leaves the cache as it is. *)
Lemma replay_valid_entries (stored : list (string * string)) s :
  NoDup stored.*1 →
  (∀ name path, (name, path) ∈ stored → valid_path env path = true) →
  (∀ name, name ∈ stored.*1 → ¬ opened s name) →
  ∃ s',
    replay env stored s = (Normal tt, s')
    ∧ cache s' = cache s
    ∧ (∀ name path, (name, path) ∈ stored →
         DatabaseManager.databases (manager s') !! name = Some path)
    ∧ (∀ name, name ∉ stored.*1 →
         DatabaseManager.databases (manager s') !! name
         = DatabaseManager.databases (manager s) !! name).
Proof.
  intros Hnd. revert s.
  induction stored as [|[name path] rest IH]; intros s Hvalid Hfresh.
  { exists s. split; [done|]. split; [done|].
    split; [intros n p Hin; by apply elem_of_nil in Hin|done]. }
  simpl in Hnd. apply NoDup_cons in Hnd as [Hname Hnd].
  assert (¬ opened s name) as Hclosed by (apply Hfresh; simpl; left).
  rewrite replay_cons. unfold bind at 1, try_catch.
  rewrite (create_db_valid env s name path); [|done|apply (Hvalid name); by left].
  destruct (IH Hnd (with_handle (with_log s (OpenIndex path)) name path))
    as (s' & Hrun & Hcache & Hopen & Hrest).
  { intros n p Hin. apply (Hvalid n). by right. }
  { intros n Hn [loc Hloc]. simpl in Hloc.
    rewrite lookup_insert_ne in Hloc by (intros ->; done).
    apply (Hfresh n); [simpl; by right|by eexists]. }
  exists s'. split; [done|]. split; [by rewrite Hcache|]. split.
  - intros n p Hin. apply elem_of_cons in Hin as [[= -> ->]|Hin].
    + rewrite (Hrest name Hname). simpl. by rewrite lookup_insert_eq.
    + by apply (Hopen n p).
  - intros n Hn. apply not_elem_of_cons in Hn as [Hne Hn].
    rewrite (Hrest n Hn). simpl. by rewrite lookup_insert_ne.
Qed.

(** X13: a restart recovers the registry: when the cache equals the registry
    and every open location is still valid, [main] started on the cache of
    a server opens the same handles and keeps the same cache, whether or
    not the storage layer would fail. *)
Theorem restart_recovers_the_registry s :
  in_sync s →
  (∀ name location,
     DatabaseManager.databases (manager s) !! name = Some location →
     valid_path env location = true) →
  ∃ s',
    main env (startup (DatabaseCache.entries (cache s))) = (Normal tt, s')
    ∧ DatabaseManager.databases (manager s') = DatabaseManager.databases (manager s)
    ∧ DatabaseCache.entries (cache s') = DatabaseCache.entries (cache s).
Proof.
  intros Hsync Hvalid. unfold in_sync in Hsync. rewrite main_eq.
  destruct (replay_valid_entries (map_to_list (DatabaseCache.entries (cache s)))
              (startup (DatabaseCache.entries (cache s))))
    as (s' & Hrun & Hcache & Hopen & Hrest).
  { apply NoDup_fst_map_to_list. }
  { intros name path Hin. apply elem_of_map_to_list in Hin.
    apply (Hvalid name). by rewrite <- Hsync. }
  { intros name _ [loc Hloc]. simpl in Hloc. by rewrite lookup_empty in Hloc. }
  exists s'. split; [done|]. split; [|by rewrite Hcache].
  rewrite <- Hsync. apply map_eq. intros name.
  destruct (DatabaseCache.entries (cache s) !! name) as [location|] eqn:Hn.
  - apply Hopen. by apply elem_of_map_to_list.
  - rewrite Hrest; [simpl; by rewrite lookup_empty|].
    intros Hin. apply list_elem_of_fmap in Hin as ([n p] & Heq & Hin).
    simpl in Heq. subst n. apply elem_of_map_to_list in Hin. congruence.
Qed.

(** X14: no handler ever opens a handle or stores a cache entry under the
    reserved meta-name. *)
Theorem handlers_keep_reserved_name_free params query msg s :
  reserved_name_free s →
  reserved_name_free (get_index params query msg s).2
  ∧ reserved_name_free (put_index env params query msg s).2
  ∧ reserved_name_free (delete_index env params query msg s).2
  ∧ reserved_name_free (get_index_query env params query msg s).2.
Proof.
  intros Hfree.
  split; [by rewrite get_index_keeps_state|].
  split; [by apply put_index_keeps_reserved_name_free|].
  split; [by apply delete_index_keeps_reserved_name_free|].
  by apply get_index_query_keeps_reserved_name_free.
Qed.

(** X15: a query on one name: when the name is not open the answer is 404 and
    no engine call is made; when it is open, exactly one search on its
    location is logged, and the answer is 200 with the JSON text of the
    engine's result, or 500 without a body when the engine fails. *)
Theorem query_on_one_name name query msg s limit :
  name ≠ META_DATABASE_NAME → query !! "limit" = Some limit →
  ∃ response s',
    get_index_query env {| index_name := name |} query msg s = (Normal response, s')
    ∧ match DatabaseManager.databases (manager s) !! name with
      | None => Soup.status_code response = 404%N ∧ s' = s
      | Some location =>
          s' = with_log s (Search location (query !! "q") (query !! "collapse") limit)
          ∧ match engine_search env location (query !! "q") (query !! "collapse") limit with
            | Some results =>
                Soup.status_code response = 200%N
                ∧ Soup.response_body response
                  = Some (MIME_JSON, JSON_stringify results)
            | None =>
                Soup.status_code response = 500%N
                ∧ Soup.response_body response = Soup.response_body msg
            end
      end.
Proof.
  intros Hne Hq.
  destruct (DatabaseManager.databases (manager s) !! name) as [location|] eqn:Hn.
  - eexists _, _. split.
    { eapply get_index_query_named; [done..|].
      erewrite query_db_open by done. apply search_eq. }
    split; [done|].
    destruct (engine_search env location (query !! "q") (query !! "collapse") limit).
    + by rewrite res_status, res_body.
    + cbv beta iota. destruct (decide (ERR_ENGINE_FAILURE = ERR_DATABASE_NOT_FOUND));
        [done|]. by rewrite res_status, res_no_body.
  - eexists _, _. split.
    { eapply get_index_query_named; [done..|]. by apply query_db_absent. }
    cbv beta iota.
    destruct (decide (ERR_DATABASE_NOT_FOUND = ERR_DATABASE_NOT_FOUND)); [|done].
    rewrite res_status. split; [done|]. apply server_eta.
Qed.

End Synchrony.

(** ** The response and the socket *)

Section Response.
Implicit Types (msg : Soup.Message) (hs : list (string * string)).

Lemma replace_headers_lookup_other hs msg name :
  name ∉ hs.*1 →
  Soup.response_headers (foldl (λ m h, Soup.replace_header m h.1 h.2) msg hs) !! name
  = Soup.response_headers msg !! name.
Proof.
  revert msg. induction hs as [|[n v] hs IH]; intros msg Hname; simpl; [done|].
  apply not_elem_of_cons in Hname as [Hne Hname].
  rewrite IH by done. simpl. by rewrite lookup_insert_ne.
Qed.

(** X16: [res] sets the status, sets every header it is given (names listed
    once) and keeps every other header of the message; without a body
    argument the body of the message is kept, with one it becomes the JSON
    text under the JSON content type. *)
Theorem res_sets_what_it_is_given msg code hs body :
  NoDup hs.*1 →
  Soup.status_code (res msg code (Some hs) body) = code
  ∧ (∀ name val, (name, val) ∈ hs →
       Soup.response_headers (res msg code (Some hs) body) !! name = Some val)
  ∧ (∀ name, name ∉ hs.*1 →
       Soup.response_headers (res msg code (Some hs) body) !! name
       = Soup.response_headers msg !! name)
  ∧ Soup.response_body (res msg code (Some hs) body)
    = match body with
      | Some docs => Some ("application/json", JSON_stringify docs)
      | None => Soup.response_body msg
      end.
Proof.
  intros Hnd. split; [apply res_status|].
  assert (Soup.response_headers (res msg code (Some hs) body)
          = Soup.response_headers
              (foldl (λ m h, Soup.replace_header m h.1 h.2)
                 (Soup.set_status msg code) hs)) as Hheaders.
  { unfold res. by destruct body. }
  split; [|split].
  - intros name val Hin. rewrite Hheaders. clear Hheaders.
    generalize (Soup.set_status msg code). revert Hnd Hin.
    induction hs as [|[n v] hs IH]; intros Hnd Hin m; simpl.
    { by apply elem_of_nil in Hin. }
    simpl in Hnd. apply NoDup_cons in Hnd as [Hfresh Hnd].
    apply elem_of_cons in Hin as [[= -> ->]|Hin].
    + rewrite replace_headers_lookup_other by done. simpl.
      by rewrite lookup_insert_eq.
    + by apply IH.
  - intros name Hname. rewrite Hheaders.
    by rewrite replace_headers_lookup_other.
  - destruct body as [docs|]; [by rewrite res_body|by rewrite res_no_body].
Qed.

End Response.

Section Socket.
Context {number : Type} (NaN : number) (isNaN : number → bool).
Context (getenv : string → option string) (parseInt : string → Z → number).

(** X17: [main] listens on a descriptor only when LISTEN_PID is set (to any
    value), LISTEN_FDS is set and its text parses to a number, and then it
    is that number; in every other case it listens on local port 3004. *)
Theorem main_listens_on_fd_or_default_port :
  isNaN NaN = true →
  match main_listen NaN isNaN getenv parseInt with
  | listen_fd fd flags =>
      flags = 0%Z ∧ isNaN fd = false
      ∧ ∃ pid fd_string,
          getenv "LISTEN_PID" = Some pid
          ∧ getenv "LISTEN_FDS" = Some fd_string
          ∧ fd = parseInt fd_string 10%Z
  | listen_local port flags =>
      port = 3004%Z ∧ flags = 0%Z
      ∧ (getenv "LISTEN_PID" = None
         ∨ getenv "LISTEN_FDS" = None
         ∨ ∃ fd_string,
             getenv "LISTEN_FDS" = Some fd_string
             ∧ isNaN (parseInt fd_string 10%Z) = true)
  end.
Proof.
  intros HNaN. unfold main_listen.
  destruct (getenv "LISTEN_PID") as [pid|] eqn:Hpid.
  2:{ rewrite HNaN. simpl. split; [done|]. split; [done|]. by left. }
  destruct (getenv "LISTEN_FDS") as [fd_string|] eqn:Hfds.
  2:{ rewrite HNaN. simpl. split; [done|]. split; [done|]. right. by left. }
  destruct (isNaN (parseInt fd_string 10%Z)) eqn:Hparse; simpl.
  - split; [done|]. split; [done|]. right. right. by exists fd_string.
  - split; [done|]. split; [done|]. by exists pid, fd_string.
Qed.

End Socket.

(** ** The routes on collaborators that record their calls *)

(** PUT when [create_db] fails unexpectedly: the cache is never called. *)
Example put_with_failing_create_calls :
  Routes.put_index (scripted_manager false (Some ERR_ENGINE_FAILURE)) (scripted_cache ∅)
    {| index_name := "idx1" |} {[ "path" := "/valid/path" ]} Soup.fresh []
  = (Normal (res Soup.fresh 500 None None), ["has_db"; "create_db"]).
Proof. vm_compute. reflexivity. Qed.

(** DELETE when [remove_db] fails: the cache is never called. *)
Example delete_with_failing_remove_calls :
  Routes.delete_index (scripted_manager true (Some ERR_ENGINE_FAILURE)) (scripted_cache ∅)
    {| index_name := "idx1" |} ∅ Soup.fresh []
  = (Normal (res Soup.fresh 404 None None), ["remove_db"]).
Proof. vm_compute. reflexivity. Qed.

(** The replay when every [create_db] fails unexpectedly: each entry is
    tried, none is removed from the cache. *)
Example replay_with_failing_create_calls :
  Routes.main (scripted_manager false (Some ERR_ENGINE_FAILURE)) (scripted_cache persisted) []
  = (Normal tt, ["get_entries"; "create_db"; "create_db"]).
Proof. vm_compute. reflexivity. Qed.

(** A query whose manager returns [undefined]: 200 and no body. *)
Example query_returning_undefined_calls :
  Routes.get_index_query (scripted_manager true None)
    {| index_name := "_all" |} {[ "limit" := "5" ]} Soup.fresh []
  = (Normal (res Soup.fresh 200 None None), ["query_all"]).
Proof. vm_compute. reflexivity. Qed.

(** ** The further properties at concrete inputs *)

Lemma healthy_world : healthy_storage (world false).
Proof. intros op stored. reflexivity. Defined.

Lemma replay_survives_create_failures_witness :
  ∃ calls,
    Routes.replay (scripted_manager false (Some ERR_ENGINE_FAILURE)) (scripted_cache ∅)
      [("idx1", "/valid/path"); ("idx2", "/missing/path")] []
    = (Normal tt, calls).
Proof.
  apply (replay_survives_create_failures
           (scripted_manager false (Some ERR_ENGINE_FAILURE)) (scripted_cache ∅)).
  intros name calls. eexists. reflexivity.
Defined.

Lemma put_ok_means_open_witness :
  opened
    (put_index (world false) {| index_name := "A" |} {[ "path" := "/data/A" ]}
       Soup.fresh nothing_open).2 "A".
Proof.
  apply (put_ok_means_open (world false) "A" {[ "path" := "/data/A" ]} Soup.fresh
           nothing_open
           (res Soup.fresh 200 None None)
           (put_index (world false) {| index_name := "A" |} {[ "path" := "/data/A" ]}
              Soup.fresh nothing_open).2).
  - by_evaluation.
  - by_evaluation.
Defined.

Lemma delete_ok_means_closed_witness :
  ¬ opened
      (delete_index (world false) {| index_name := "idx1" |} ∅ Soup.fresh one_index).2
      "idx1".
Proof.
  apply (delete_ok_means_closed (world false) "idx1" ∅ Soup.fresh one_index
           (res Soup.fresh 200 None None)
           (delete_index (world false) {| index_name := "idx1" |} ∅ Soup.fresh
              one_index).2).
  - by_evaluation.
  - by_evaluation.
Defined.

Lemma put_then_delete_restores_witness :
  ∃ r1 s1 r2 s2,
    put_index (world false) {| index_name := "A" |} {[ "path" := "/data/A" ]}
      Soup.fresh one_index = (Normal r1, s1)
    ∧ Soup.status_code r1 = 200%N
    ∧ delete_index (world false) {| index_name := "A" |} ∅ Soup.fresh s1 = (Normal r2, s2)
    ∧ Soup.status_code r2 = 200%N
    ∧ DatabaseManager.databases (manager s2) = DatabaseManager.databases (manager one_index)
    ∧ cache s2 = cache one_index.
Proof.
  apply (put_then_delete_restores (world false) "A" "/data/A"
           {[ "path" := "/data/A" ]} ∅ Soup.fresh Soup.fresh one_index).
  - exact healthy_world.
  - discriminate.
  - not_open.
  - by_evaluation.
  - by_evaluation.
  - by_evaluation.
Defined.

Lemma put_and_delete_touch_one_name_witness :
  DatabaseManager.databases
    (manager (delete_index (world false) {| index_name := "A" |} ∅ Soup.fresh
                two_indices).2) !! "B"
  = DatabaseManager.databases (manager two_indices) !! "B".
Proof.
  apply (put_and_delete_touch_one_name (world false) "A" "B" ∅ Soup.fresh two_indices).
  discriminate.
Defined.

Lemma handlers_keep_in_sync_witness :
  in_sync (put_index (world false) {| index_name := "A" |} {[ "path" := "/data/A" ]}
             Soup.fresh one_index).2.
Proof.
  apply (handlers_keep_in_sync (world false) {| index_name := "A" |}
           {[ "path" := "/data/A" ]} Soup.fresh one_index).
  - exact healthy_world.
  - reflexivity.
Defined.

Lemma main_opens_the_openable_entries_witness :
  ∃ s',
    main (world false) (startup persisted) = (Normal tt, s')
    ∧ DatabaseManager.databases (manager s') = openable (world false) persisted
    ∧ in_sync s'.
Proof.
  apply (main_opens_the_openable_entries (world false) persisted).
  exact healthy_world.
Defined.

Lemma restart_recovers_the_registry_witness :
  ∃ s',
    main (world true) (startup (DatabaseCache.entries (cache two_indices)))
    = (Normal tt, s')
    ∧ DatabaseManager.databases (manager s')
      = DatabaseManager.databases (manager two_indices)
    ∧ DatabaseCache.entries (cache s') = DatabaseCache.entries (cache two_indices).
Proof.
  apply (restart_recovers_the_registry (world true) two_indices).
  - reflexivity.
  - intros name location Hopen.
    assert (map_to_list (DatabaseManager.databases (manager two_indices))
            = [("A", "/data/A"); ("B", "/data/B")]) as Hhandles by by_evaluation.
    apply elem_of_map_to_list in Hopen. rewrite Hhandles in Hopen.
    apply elem_of_cons in Hopen as [[= -> ->]|Hopen]; [reflexivity|].
    apply elem_of_cons in Hopen as [[= -> ->]|Hopen]; [reflexivity|].
    by apply elem_of_nil in Hopen.
Defined.

Lemma handlers_keep_reserved_name_free_witness :
  reserved_name_free
    (put_index (world false) {| index_name := "A" |} {[ "path" := "/data/A" ]}
       Soup.fresh one_index).2.
Proof.
  apply (handlers_keep_reserved_name_free (world false) {| index_name := "A" |}
           {[ "path" := "/data/A" ]} Soup.fresh one_index).
  split; by_evaluation.
Defined.

Lemma query_on_one_name_witness :
  ∃ response s',
    get_index_query (world false) {| index_name := "A" |}
      {[ "q" := "cats"; "limit" := "3" ]} Soup.fresh two_indices
    = (Normal response, s').
Proof.
  destruct (query_on_one_name (world false) "A" {[ "q" := "cats"; "limit" := "3" ]}
              Soup.fresh two_indices "3") as (response & s' & Hrun & _).
  - discriminate.
  - by_evaluation.
  - by exists response, s'.
Defined.

Lemma res_sets_what_it_is_given_witness :
  Soup.status_code
    (res Soup.fresh 405 (Some [("Allow", "GET"); ("Vary", "Accept")]) None) = 405%N.
Proof.
  apply (res_sets_what_it_is_given Soup.fresh 405
           [("Allow", "GET"); ("Vary", "Accept")] None).
  apply (bool_decide_unpack _). by_evaluation.
Defined.

(** LISTEN_PID and LISTEN_FDS set as systemd sets them. *)
Lemma main_listens_on_fd_or_default_port_witness :
  match main_listen None is_NaN systemd_getenv parse_digits with
  | listen_fd fd flags =>
      flags = 0%Z ∧ is_NaN fd = false
      ∧ ∃ pid fd_string,
          systemd_getenv "LISTEN_PID" = Some pid
          ∧ systemd_getenv "LISTEN_FDS" = Some fd_string
          ∧ fd = parse_digits fd_string 10%Z
  | listen_local port flags =>
      port = 3004%Z ∧ flags = 0%Z
      ∧ (systemd_getenv "LISTEN_PID" = None
         ∨ systemd_getenv "LISTEN_FDS" = None
         ∨ ∃ fd_string,
             systemd_getenv "LISTEN_FDS" = Some fd_string
             ∧ is_NaN (parse_digits fd_string 10%Z) = true)
  end.
Proof.
  apply (main_listens_on_fd_or_default_port None is_NaN systemd_getenv parse_digits).
  reflexivity.
Defined.

(** With that environment [main] listens on descriptor 1. *)
Example main_listens_on_systemd_socket :
  main_listen None is_NaN systemd_getenv parse_digits = listen_fd (Some 1%Z) 0.
Proof. vm_compute. reflexivity. Qed.
